(** * rbd-qemu terraform provider: resource-lifecycle engine

    A shallow embedding of [terraform-provider-rbdqemu.go]: the remote
    executor [f_ssh], the probers [f_rbdExists] and [f_vmExists], the
    hypervisor selector [f_getHypervisor] and the volume / VM handlers,
    followed by the properties the design document states about them.

    Conventions.
    - A Go [string] is a byte sequence: [String.string].
    - A Go [int] is the 64-bit two's-complement integer of the amd64 build,
      carried as a [Z] inside [min_int, max_int].
    - A Go [error] is carried by its message; a nil-able error is an
      [option error].
    - A run-time panic (index out of range) is an explicit outcome.
    - [f_log] only appends to the log file and returns nothing; it is left
      out of the embedding. *)

From Stdlib Require Import ZArith List String Ascii Bool Lia.
From Stdlib Require Import DecimalString.
Import ListNotations.

Local Open Scope string_scope.
Local Open Scope Z_scope.

(* ------------------------------------------------------------------------- *)
(** ** The Go library functions the provider calls *)

Module GoLib.

Definition max_int : Z := 9223372036854775807.
Definition min_int : Z := -9223372036854775808.
Definition max_uint64 : Z := 18446744073709551615.

(** [len(s)] as a Go [int]. *)
Definition len (s : string) : Z := Z.of_nat (String.length s).

(** [len(xs)] of a slice. *)
Definition len_slice {A : Type} (xs : list A) : Z := Z.of_nat (List.length xs).

(** [fmt.Sprintf("%d", n)]. *)
Definition itoa (n : Z) : string := NilZero.string_of_int (Z.to_int n).

(** The digit value of a byte, as [strconv] computes it in base 10. *)
Definition digit_of (c : ascii) : option Z :=
  let n := Z.of_nat (nat_of_ascii c) in
  if (48 <=? n) && (n <=? 57) then Some (n - 48) else None.

Inductive uint_result : Type :=
| UintOk (n : Z)
| UintSyntax
| UintRange.

(** The digit loop of [strconv.ParseUint(s, 10, 64)]: a byte that is not a
    digit is a syntax error, and an overflow is reported as soon as it is
    met, before the remaining bytes are looked at. *)
Fixpoint parse_digits (s : string) (n : Z) : uint_result :=
  match s with
  | EmptyString => UintOk n
  | String c rest =>
      match digit_of c with
      | None => UintSyntax
      | Some d =>
          if max_uint64 / 10 + 1 <=? n then UintRange
          else if max_uint64 <? n * 10 + d then UintRange
          else parse_digits rest (n * 10 + d)
      end
  end.

Definition ParseUint (s : string) : uint_result :=
  match s with
  | EmptyString => UintSyntax
  | _ => parse_digits s 0
  end.

(** [n, _ := strconv.Atoi(s)]: the value left in [n] when the error is
    dropped. A syntax error leaves 0; a range error leaves the nearest
    bound of [int]. *)
Definition Atoi (s : string) : Z :=
  let '(neg, body) :=
    match s with
    | String "+" rest => (false, rest)
    | String "-" rest => (true, rest)
    | _ => (false, s)
    end in
  match ParseUint body with
  | UintSyntax => 0
  | UintRange => if neg then min_int else max_int
  | UintOk un =>
      if neg then (if max_int + 1 <? un then min_int else - un)
      else (if max_int <? un then max_int else un)
  end.

(** The length in bytes of the white-space rune a string starts with, or
    0 when it starts with none. These are the runes [unicode.IsSpace]
    accepts, in their UTF-8 encodings; none of their lead bytes is a
    continuation byte, so matching on bytes agrees with decoding. *)
Definition space_width (s : string) : nat :=
  match s with
  | String c rest =>
      let n := nat_of_ascii c in
      if ((9 <=? n) && (n <=? 13) || (n =? 32))%nat then 1%nat
      else
        match n, rest with
        | 194%nat, String c1 _ =>
            let n1 := nat_of_ascii c1 in
            if ((n1 =? 133) || (n1 =? 160))%nat then 2%nat else 0%nat
        | 225%nat, String c1 (String c2 _) =>
            if ((nat_of_ascii c1 =? 154) && (nat_of_ascii c2 =? 128))%nat
            then 3%nat else 0%nat
        | 226%nat, String c1 (String c2 _) =>
            let n1 := nat_of_ascii c1 in
            let n2 := nat_of_ascii c2 in
            if ((n1 =? 128)
                && ((128 <=? n2) && (n2 <=? 138)
                    || (n2 =? 168) || (n2 =? 169) || (n2 =? 175)))%nat
            then 3%nat
            else if ((n1 =? 129) && (n2 =? 159))%nat then 3%nat else 0%nat
        | 227%nat, String c1 (String c2 _) =>
            if ((nat_of_ascii c1 =? 128) && (nat_of_ascii c2 =? 128))%nat
            then 3%nat else 0%nat
        | _, _ => 0%nat
        end
  | EmptyString => 0%nat
  end.

(** One pass of [strings.Fields]: [skip] is the number of bytes of a
    white-space rune still to be dropped, [cur] the field being read,
    [inside] whether a field is open. *)
Fixpoint fields_go (s : string) (skip : nat) (cur : string) (inside : bool)
  : list string :=
  match s with
  | EmptyString => if inside then [cur] else []
  | String c rest =>
      match skip with
      | S k => fields_go rest k cur inside
      | O =>
          match space_width s with
          | O => fields_go rest 0 (cur ++ String c EmptyString) true
          | S k =>
              if inside then cur :: fields_go rest k EmptyString false
              else fields_go rest k EmptyString false
          end
      end
  end.

(** [strings.Fields(s)]. *)
Definition Fields (s : string) : list string :=
  fields_go s 0 EmptyString false.

(** Splitting at every byte [sep] satisfies, empty pieces kept. *)
Fixpoint split_on (sep : ascii -> bool) (s : string) (cur : string)
  : list string :=
  match s with
  | EmptyString => [cur]
  | String c rest =>
      if sep c then cur :: split_on sep rest EmptyString
      else split_on sep rest (cur ++ String c EmptyString)
  end.

(** [strings.Split(s, "\n")]. *)
Definition Split_newline (s : string) : list string :=
  split_on (fun c => Ascii.eqb c "010") s EmptyString.

Definition blank (c : ascii) : bool :=
  Ascii.eqb c " " || Ascii.eqb c "009".

(** Splitting at every maximal run of blanks; [prev] tells whether the
    byte before was a blank. *)
Fixpoint split_runs (s : string) (cur : string) (prev : bool) : list string :=
  match s with
  | EmptyString => [cur]
  | String c rest =>
      if blank c then
        if prev then split_runs rest cur true
        else cur :: split_runs rest EmptyString true
      else split_runs rest (cur ++ String c EmptyString) false
  end.

(** [regexp.MustCompile("[ \t]+").Split(s, -1)]. *)
Definition Split_blanks (s : string) : list string :=
  split_runs s EmptyString false.

End GoLib.

Import GoLib.

(* ------------------------------------------------------------------------- *)
(** ** Data model *)

Definition error : Type := string.

(** [errors.New(msg)]. *)
Definition errors_New (msg : string) : option error := Some msg.

Definition is_nil (e : option error) : bool :=
  match e with
  | None => true
  | Some _ => false
  end.

(** The process-wide configuration [rbdConfig] fills in. *)
Record Config : Type := mkConfig {
  G_ssh_private_key : string;
  G_ceph_rbduser : string;
  G_ceph_hosts : list string;
  G_qemu_hosts : list string
}.

Definition cfg_vmNamePrefix : string := "tf".
Definition cfg_qemu_sys : string :=
  "/usr/local/packages/qemu-4.1.0/bin/qemu-system-x86_64".
Definition cfg_qemu_img : string :=
  "/usr/local/packages/qemu-4.1.0/bin/qemu-img".

(** What one [exec.Command("ssh", ...)] child does, as [f_ssh] observes it:
    the result of [Start], the successive results of [ReadLine] on each pipe
    up to its first error, and the exit status [Wait] collects. *)
Record Proc : Type := mkProc {
  start_err : option error;
  out_lines : list string;
  err_lines : list string;
  exit_code : Z
}.

(** [ssh.Wait()]: an [*exec.ExitError] unless the child exited with 0. *)
Definition Wait (p : Proc) : option error :=
  if exit_code p =? 0 then None
  else Some ("exit status " ++ itoa (exit_code p)).

(** The schema-validated attributes of a [*schema.ResourceData] and its id;
    the empty id is the unset one. *)
Record ResourceData : Type := mkResourceData {
  osd_pool : string;
  img_name : string;
  img_size : string;
  name : string;
  cpus : Z;
  mem_mb : Z;
  vlan : Z;
  mac : string;
  vnc : string;
  Id : string
}.

Definition SetId (v : string) (d : ResourceData) : ResourceData :=
  mkResourceData (osd_pool d) (img_name d) (img_size d) (name d) (cpus d)
    (mem_mb d) (vlan d) (mac d) (vnc d) v.

(** One completed call of [f_ssh]: where, what, and the three results. *)
Record Call : Type := mkCall {
  call_host : string;
  call_cmd : string;
  call_out : string;
  call_err : string;
  call_fault : option error
}.

(** The probe a call stands for was reported as failed to its caller. *)
Definition probe_failed (c : Call) : bool :=
  negb (is_nil (call_fault c)) || (0 <? len (call_err c)).

Inductive Outcome (A : Type) : Type :=
| Ret (a : A)
| Panic (msg : string).
Arguments Ret {A} a.
Arguments Panic {A} msg.

(** Splitting a goal into its conjuncts, without unfolding anything. *)
Ltac splits := repeat match goal with |- _ /\ _ => split end.

(* ------------------------------------------------------------------------- *)
(** ** The provider *)

Section Provider.

(** The machines behind ssh: a state and what spawning a child with the
    given program and arguments does to it. *)
Context {World : Type}.
Variable spawn : World -> string -> list string -> Proc * World.

Variable cfg : Config.

(** Everything a handler can touch: the outside world and the resource data
    [d] points to; [trace] records, in order, the calls of [f_ssh] completed
    so far, and is read by the statements only. *)
Record State : Type := mkState {
  world : World;
  trace : list Call;
  rdata : ResourceData
}.

Definition M (A : Type) : Type := State -> Outcome A * State.

Definition ret {A : Type} (a : A) : M A := fun st => (Ret a, st).

Definition bind {A B : Type} (m : M A) (k : A -> M B) : M B :=
  fun st =>
    match m st with
    | (Ret a, st') => k a st'
    | (Panic msg, st') => (Panic msg, st')
    end.

Definition panic {A : Type} (msg : string) : M A := fun st => (Panic msg, st).

Notation "x <- m ;; k" := (bind m (fun x => k))
  (at level 61, m at next level, right associativity).
Notation "' p <- m ;; k" := (bind m (fun x => let 'p := x in k))
  (at level 61, p pattern, m at next level, right associativity).

(** [xs[i]] on a slice. *)
Definition index (xs : list string) (i : nat) : M string :=
  match nth_error xs i with
  | Some x => ret x
  | None => panic "index out of range"
  end.

(** [d.Get(...)] and [d.SetId(...)]. *)
Definition Get {A : Type} (field : ResourceData -> A) : M A :=
  fun st => (Ret (field (rdata st)), st).

Definition d_SetId (v : string) : M unit :=
  fun st => (Ret tt, mkState (world st) (trace st) (SetId v (rdata st))).

(** Each of the two read loops of [f_ssh]: a line replaces an empty buffer
    and is appended after a newline to a non-empty one. *)
Definition read_all (lines : list string) : string :=
  fold_left
    (fun buf line =>
       if len buf =? 0 then line else buf ++ String "010" line)
    lines "".

Definition f_ssh (host rcmd : string) : M (string * string * option error) :=
  fun st =>
    let ssh_args := [ "-i"; G_ssh_private_key cfg;
                      "-o"; "StrictHostKeyChecking=no";
                      "-o"; "BatchMode=yes";
                      "root@" ++ host; rcmd ] in
    let '(p, w) := spawn (world st) "ssh" ssh_args in
    let '(out_buf, err_buf, fault) :=
      match start_err p with
      | Some _ => ("", "", None)
      | None => (read_all (out_lines p), read_all (err_lines p), Wait p)
      end in
    (Ret (out_buf, err_buf, fault),
     mkState w (trace st ++ [mkCall host rcmd out_buf err_buf fault])
       (rdata st)).

(** The search of [f_rbdExists] through the lines of the listing. *)
Fixpoint find_image (lines : list string) (img : string) : bool :=
  match lines with
  | [] => false
  | val :: rest => if String.eqb val img then true else find_image rest img
  end.

Definition f_rbdExists (pool img : string) : M (bool * option error) :=
  let rbd_cmd := "rbd ls -p " ++ pool in
  h <- index (G_ceph_hosts cfg) 0 ;;
  '(out_buf, err_buf, fault) <- f_ssh h rbd_cmd ;;
  match fault with
  | Some e => ret (false, errors_New ("ssh fault - " ++ e))
  | None =>
      if 0 <? len err_buf
      then ret (false, errors_New ("rbd fault - " ++ err_buf))
      else ret (find_image (Split_newline out_buf) img, None)
  end.

(** The loop of [f_getHypervisor] over the hosts still to be asked. *)
Fixpoint scan_hosts (hosts : list string) (max_avail : Z) (best_host : string)
  : M (Z * string) :=
  match hosts with
  | [] => ret (max_avail, best_host)
  | v :: rest =>
      '(out_buf, err_buf, fault) <-
        f_ssh v "grep MemAvailable /proc/meminfo" ;;
      if negb (is_nil fault) || (0 <? len err_buf)
      then scan_hosts rest max_avail best_host
      else
        let tokens := Split_blanks out_buf in
        tok <- index tokens 1 ;;
        let avail_kb := Atoi tok in
        if max_avail <? avail_kb
        then scan_hosts rest avail_kb v
        else scan_hosts rest max_avail best_host
  end.

Definition f_getHypervisor (mem : Z) : M string :=
  '(max_avail, best_host) <- scan_hosts (G_qemu_hosts cfg) 0 "" ;;
  if mem <? Z.quot max_avail 1024 then ret best_host else ret "".

Definition rsRbdCreate : M (option error) :=
  pool <- Get osd_pool ;;
  img <- Get img_name ;;
  size <- Get img_size ;;
  let rbd_cmd :=
    "rbd create --pool " ++ pool ++ " --image " ++ img ++ " --size " ++ size
    ++ " && " ++ "rbd feature disable " ++ pool ++ "/" ++ img ++ " "
    ++ "object-map fast-diff deep-flatten" in
  h0 <- index (G_ceph_hosts cfg) 0 ;;
  '(_, err_buf, fault) <- f_ssh h0 rbd_cmd ;;
  match fault with
  | Some e => ret (Some e)
  | None =>
      if 0 <? len err_buf then ret (errors_New err_buf)
      else
        _ <- d_SetId (pool ++ "/" ++ img) ;;
        h <- f_getHypervisor 1 ;;
        if len h <? 1 then ret None
        else
          let qemu_img_cmd :=
            cfg_qemu_img ++ " create -f rbd rbd:" ++ pool ++ "/" ++ img
            ++ ":id=" ++ G_ceph_rbduser cfg ++ " " ++ size in
          '(_, err_buf, fault) <- f_ssh h qemu_img_cmd ;;
          match fault with
          | Some e => ret (Some e)
          | None =>
              if 0 <? len err_buf then ret (errors_New err_buf)
              else ret None
          end
  end.

Definition rsRbdRead : M (option error) :=
  pool <- Get osd_pool ;;
  img <- Get img_name ;;
  '(result, fault) <- f_rbdExists pool img ;;
  if is_nil fault && Bool.eqb result true
  then _ <- d_SetId (pool ++ "/" ++ img) ;; ret None
  else ret None.

Definition rsRbdUpdate : M (option error) :=
  ret (errors_New "feature not implemented").

Definition rsRbdDelete : M (option error) :=
  pool <- Get osd_pool ;;
  img <- Get img_name ;;
  let rbd_cmd := "rbd rm --no-progress " ++ pool ++ "/" ++ img in
  h0 <- index (G_ceph_hosts cfg) 0 ;;
  '(_, err_buf, fault) <- f_ssh h0 rbd_cmd ;;
  match fault with
  | Some e => ret (Some e)
  | None => if 0 <? len err_buf then ret (errors_New err_buf) else ret None
  end.

Definition rsRbdExists : M (bool * option error) :=
  pool <- Get osd_pool ;;
  img <- Get img_name ;;
  f_rbdExists pool img.

(** The id [f_vmExists] searches for and the command it sends. *)
Definition vm_id (vm : string) : string := cfg_vmNamePrefix ++ "-" ++ vm.

Definition vm_search_cmd (id : string) : string :=
  "ps axwww -o 'pid args' | grep -v grep | " ++ "grep -w '" ++ id
  ++ "' ; /bin/true".

(** The test [f_vmExists] applies to the tokens of one host's output. *)
Definition name_matches (id : string) (tokens : list string) : bool :=
  String.eqb (nth 2 tokens "") "-name" && String.eqb (nth 3 tokens "") id.

(** The loop of [f_vmExists] over the hosts still to be searched. *)
Fixpoint search_hosts (id ssh_cmd : string) (hosts : list string)
  : M (string * Z * option error) :=
  match hosts with
  | [] => ret ("", 0, None)
  | v :: rest =>
      '(stdout, stderr, fault) <- f_ssh v ssh_cmd ;;
      match fault with
      | Some e => ret ("", 0, Some e)
      | None =>
          if 0 <? len stderr then ret ("", 0, errors_New stderr)
          else
            let tokens := Fields stdout in
            if 3 <? len_slice tokens then
              let pid := Atoi (nth 0 tokens "") in
              if name_matches id tokens then ret (v, pid, None)
              else search_hosts id ssh_cmd rest
            else search_hosts id ssh_cmd rest
      end
  end.

Definition f_vmExists (vm : string) : M (string * Z * option error) :=
  let id := vm_id vm in
  search_hosts id (vm_search_cmd id) (G_qemu_hosts cfg).

Definition rsVmCreate : M (option error) :=
  d <- Get (fun d => d) ;;
  h <- f_getHypervisor (mem_mb d) ;;
  if len h <? 1 then ret None
  else
    let id := cfg_vmNamePrefix ++ "-" ++ name d in
    let qemu_cmd :=
      cfg_qemu_sys ++ " " ++ "-name " ++ id ++ " " ++ "-smp "
      ++ itoa (cpus d) ++ " " ++ "-m " ++ itoa (mem_mb d) ++ " " ++ "-vnc "
      ++ vnc d ++ " " ++ "-drive format=rbd,file=rbd:" ++ osd_pool d ++ "/"
      ++ img_name d ++ "," ++ "cache=writeback "
      ++ "-nic tap,script=/root/bin/add_tap" ++ itoa (vlan d) ++ ".sh,"
      ++ "model=virtio-net-pci,mac=" ++ mac d ++ " " ++ "-vga vmware "
      ++ "-enable-kvm " ++ "-usb " ++ "-device usb-tablet " ++ "-daemonize" in
    '(_, err_buf, fault) <- f_ssh h qemu_cmd ;;
    match fault with
    | Some e => ret (Some e)
    | None =>
        if 0 <? len err_buf then ret (errors_New err_buf)
        else _ <- d_SetId id ;; ret None
    end.

Definition rsVmRead : M (option error) :=
  vm <- Get name ;;
  '(hypervisor, _, fault) <- f_vmExists vm ;;
  if negb (is_nil fault) && (0 <? len hypervisor)
  then _ <- d_SetId (cfg_vmNamePrefix ++ "-" ++ vm) ;; ret None
  else ret None.

Definition rsVmUpdate : M (option error) :=
  ret (errors_New "feature not implemented").

(** The message of the kill failure: its format has four verbs and three
    operands, so [Sprintf] ends it with the missing-operand marker. *)
Definition kill_failed_msg (vm : string) (pid : Z) (hypervisor : string)
  : string :=
  "Failed to delete " ++ vm ++ " pid:" ++ itoa pid ++ " on " ++ hypervisor
  ++ " - %!s(MISSING)".

Definition not_located_msg (vm : string) : string :=
  "Could not locate VM and pid of " ++ vm.

Definition rsVmDelete : M (option error) :=
  vm <- Get name ;;
  '(hypervisor, pid, fault) <- f_vmExists vm ;;
  if (0 <? len hypervisor) && (1 <? pid) && is_nil fault then
    let ssh_cmd := "kill " ++ itoa pid in
    '(_, _, fault) <- f_ssh hypervisor ssh_cmd ;;
    match fault with
    | Some _ => ret (errors_New (kill_failed_msg vm pid hypervisor))
    | None => ret None
    end
  else ret (errors_New (not_located_msg vm)).

Definition rsVmExists : M (bool * option error) :=
  vm <- Get name ;;
  '(hypervisor, _, fault) <- f_vmExists vm ;;
  match fault with
  | Some _ => ret (false, None)
  | None => if 0 <? len hypervisor then ret (true, None) else ret (false, None)
  end.

(* ------------------------------------------------------------------------- *)
(** *** Reading the calls a run has made *)

(** The state a call of [f_ssh] leaves: the world moved on, the call
    recorded, the resource data as it was. *)
Definition ssh_call (st : State) (c : Call) (w : World) : State :=
  mkState w (trace st ++ [c]) (rdata st).

(** What [f_vmExists] reads off one probe. *)
Definition probe_error (c : Call) : option error :=
  match call_fault c with
  | Some e => Some e
  | None => if 0 <? len (call_err c) then Some (call_err c) else None
  end.

Definition probe_pid (c : Call) : Z := Atoi (nth 0 (Fields (call_out c)) "").

Definition accepted (id : string) (c : Call) : bool :=
  (3 <? len_slice (Fields (call_out c)))
  && name_matches id (Fields (call_out c)).

(** A probe that neither failed nor matched. *)
Definition quiet (id : string) (c : Call) : Prop :=
  probe_failed c = false /\ accepted id c = false.

(** [searched id cmd hosts calls r]: searching [hosts] makes exactly the
    calls [calls] and ends with the result [r]. *)
Inductive searched (id cmd : string)
  : list string -> list Call -> string * Z * option error -> Prop :=
| se_none : searched id cmd [] [] ("", 0, None)
| se_abort v rest c :
    call_host c = v -> call_cmd c = cmd -> probe_failed c = true ->
    searched id cmd (v :: rest) [c] ("", 0, probe_error c)
| se_found v rest c :
    call_host c = v -> call_cmd c = cmd -> probe_failed c = false ->
    accepted id c = true ->
    searched id cmd (v :: rest) [c] (v, probe_pid c, None)
| se_next v rest c calls r :
    call_host c = v -> call_cmd c = cmd -> quiet id c ->
    searched id cmd rest calls r ->
    searched id cmd (v :: rest) (c :: calls) r.

Definition meminfo_cmd : string := "grep MemAvailable /proc/meminfo".

(** The probe [c] went through and its second token reads as [kb]. *)
Definition reports (c : Call) (kb : Z) : Prop :=
  probe_failed c = false
  /\ exists tok,
      nth_error (Split_blanks (call_out c)) 1 = Some tok /\ Atoi tok = kb.


(** [scanned hosts acc calls r]: scanning [hosts] from the running
    maximum [acc] makes exactly the calls [calls] and ends with [r]. *)
Inductive scanned
  : list string -> Z * string -> list Call -> Outcome (Z * string) -> Prop :=
| sc_done acc : scanned [] acc [] (Ret acc)
| sc_skip v rest acc c calls r :
    call_host c = v -> call_cmd c = meminfo_cmd -> probe_failed c = true ->
    scanned rest acc calls r ->
    scanned (v :: rest) acc (c :: calls) r
| sc_panic v rest acc c :
    call_host c = v -> call_cmd c = meminfo_cmd -> probe_failed c = false ->
    nth_error (Split_blanks (call_out c)) 1 = None ->
    scanned (v :: rest) acc [c] (Panic "index out of range")
| sc_take v rest mx best c kb calls r :
    call_host c = v -> call_cmd c = meminfo_cmd -> reports c kb ->
    mx < kb -> scanned rest (kb, v) calls r ->
    scanned (v :: rest) (mx, best) (c :: calls) r
| sc_keep v rest mx best c kb calls r :
    call_host c = v -> call_cmd c = meminfo_cmd -> reports c kb ->
    kb <= mx -> scanned rest (mx, best) calls r ->
    scanned (v :: rest) (mx, best) (c :: calls) r.

(** The state [d.SetId(v)] leaves. *)
Definition with_id (v : string) (st : State) : State :=
  mkState (world st) (trace st) (SetId v (rdata st)).

(** The two commands of [rsRbdCreate]. *)
Definition rbd_create_cmd (pool img size : string) : string :=
  "rbd create --pool " ++ pool ++ " --image " ++ img ++ " --size " ++ size
  ++ " && " ++ "rbd feature disable " ++ pool ++ "/" ++ img ++ " "
  ++ "object-map fast-diff deep-flatten".

Definition qemu_img_cmd (pool img size : string) : string :=
  cfg_qemu_img ++ " create -f rbd rbd:" ++ pool ++ "/" ++ img
  ++ ":id=" ++ G_ceph_rbduser cfg ++ " " ++ size.

(** The part of [rsRbdCreate] that follows [d.SetId]. *)
Definition materialize (pool img size : string) : M (option error) :=
  h <- f_getHypervisor 1 ;;
  if len h <? 1 then ret None
  else
    '(_, err_buf, fault) <- f_ssh h (qemu_img_cmd pool img size) ;;
    match fault with
    | Some e => ret (Some e)
    | None => if 0 <? len err_buf then ret (errors_New err_buf) else ret None
    end.

End Provider.

Arguments State : clear implicits.
Arguments M : clear implicits.

(* ------------------------------------------------------------------------- *)
(** ** A scripted cluster, for running the provider on concrete inputs *)

Module Script.

(** A child that cannot be started: no [ssh] binary on the path. *)
Definition no_ssh : Proc :=
  mkProc (Some "exec: ssh: executable file not found in $PATH") [] [] 0.

(** A child that prints [lines] and exits with 0. *)
Definition prints (lines : list string) : Proc := mkProc None lines [] 0.

(** A child that complains with [lines] on stderr and still exits with 0. *)
Definition complains (lines : list string) : Proc := mkProc None [] lines 0.

(** A child that exits with [code] after printing nothing. *)
Definition exits (code : Z) : Proc := mkProc None [] [] code.

(** The world is the list of children still to come, one per spawn. *)
Definition spawn (w : list Proc) (prog : string) (args : list string)
  : Proc * list Proc :=
  match w with
  | [] => (no_ssh, [])
  | p :: rest => (p, rest)
  end.

Definition config (ceph qemu : list string) : Config :=
  mkConfig "/root/.ssh/id_ed25519" "admin" ceph qemu.

Definition volume (pool img size : string) : ResourceData :=
  mkResourceData pool img size "" 0 0 0 "" "" "".

Definition vm (vmname : string) : ResourceData :=
  mkResourceData "rbd" "helloImg" "" vmname 1 2048 10 "de:ad:be:ef:ca:fe"
    ":10" "".

Definition start (w : list Proc) (d : ResourceData) : State (list Proc) :=
  mkState w [] d.

(** [kb] kilobytes available, as [/proc/meminfo] prints it. *)
Definition meminfo (kb : string) : Proc :=
  prints ["MemAvailable:    " ++ kb ++ " kB"].

End Script.

(** The arguments [f_ssh] starts [ssh] with. *)
Definition ssh_argv (cfg : Config) (host rcmd : string) : list string :=
  [ "-i"; G_ssh_private_key cfg; "-o"; "StrictHostKeyChecking=no";
    "-o"; "BatchMode=yes"; "root@" ++ host; rcmd ].

(* ------------------------------------------------------------------------- *)
(** ** The clusters of the examples *)

(** The two clusters of the matching examples: one hypervisor running the VM
    as pid 2533650; and two hypervisors, the first listing a process whose
    [-name] flag sits one token further than expected, the second running
    the VM as pid 4242. *)
Definition one_host_running : State (list Proc) :=
  Script.start
    [Script.prints ["2533650 /bin/qemu -name tf-helloVm -smp 1 -m 128"]]
    (Script.vm "helloVm").

Definition shifted_then_running : State (list Proc) :=
  Script.start
    [Script.prints ["2533650 /bin/qemu -smp 1 -name tf-helloVm -m 128"];
     Script.prints ["4242 /bin/qemu -name tf-helloVm -smp 1 -m 128"]]
    (Script.vm "helloVm").

(** Two hypervisors, neither listing a process for the VM. *)
Definition nobody_running : State (list Proc) :=
  Script.start [Script.prints []; Script.prints []] (Script.vm "helloVm").

Definition two_hypervisors : Config :=
  Script.config [] ["192.168.3.100"; "192.168.3.101"].

(** One hypervisor listing the VM's process with a pid column that is not a
    number. *)
Definition unreadable_pid : State (list Proc) :=
  Script.start
    [Script.prints ["abc /bin/qemu -name tf-helloVm -smp 1 -m 128"]]
    (Script.vm "helloVm").

Definition one_hypervisor : Config := Script.config [] ["192.168.3.100"].

(** A storage host whose listing fails with a message on stderr, asked for
    the volume rbd/helloImg. *)
Definition listing_fails : State (list Proc) :=
  Script.start [Script.complains ["rbd: error opening pool"]]
    (Script.volume "rbd" "helloImg" "6M").

Definition one_storage_host : Config :=
  Script.config ["192.168.10.20"] ["192.168.3.100"].

(** A storage host that creates the volume without a word, one hypervisor
    with 2 GB available, and a qemu-img that fails with a message. *)
Definition qemu_img_fails : State (list Proc) :=
  Script.start
    [Script.prints []; Script.meminfo "2097152";
     Script.complains ["qemu-img: error connecting"]]
    (Script.volume "rbd" "helloImg" "6M").




(* ------------------------------------------------------------------------- *)
(** ** Vocabulary of the further properties *)

(** The byte [b] occurs in [s]. *)
Fixpoint has_byte (b : ascii) (s : string) : bool :=
  match s with
  | EmptyString => false
  | String c rest => Ascii.eqb c b || has_byte b rest
  end.

(** What [ReadLine] can return: a line holds no newline. *)
Definition newline_free (s : string) : Prop := has_byte "010" s = false.

(** The lines left once the leading empty ones are dropped. *)
Fixpoint drop_blank_lines (lines : list string) : list string :=
  match lines with
  | EmptyString :: rest => drop_blank_lines rest
  | _ => lines
  end.

(** Every byte of [s] is a printable ASCII character other than the space. *)
Fixpoint printable (s : string) : bool :=
  match s with
  | EmptyString => true
  | String c rest =>
      let n := nat_of_ascii c in
      ((33 <=? n) && (n <=? 126))%nat && printable rest
  end.

(** The command [rsVmCreate] launches the VM of [d] with. *)
Definition qemu_launch_cmd (d : ResourceData) : string :=
  cfg_qemu_sys ++ " " ++ "-name " ++ (cfg_vmNamePrefix ++ "-" ++ name d)
  ++ " " ++ "-smp " ++ itoa (cpus d) ++ " " ++ "-m " ++ itoa (mem_mb d)
  ++ " " ++ "-vnc " ++ vnc d ++ " " ++ "-drive format=rbd,file=rbd:"
  ++ osd_pool d ++ "/" ++ img_name d ++ "," ++ "cache=writeback "
  ++ "-nic tap,script=/root/bin/add_tap" ++ itoa (vlan d) ++ ".sh,"
  ++ "model=virtio-net-pci,mac=" ++ mac d ++ " " ++ "-vga vmware "
  ++ "-enable-kvm " ++ "-usb " ++ "-device usb-tablet " ++ "-daemonize".

(** The command [rsRbdDelete] removes a volume with. *)
Definition rbd_rm_cmd (pool img : string) : string :=
  "rbd rm --no-progress " ++ pool ++ "/" ++ img.

(** What [f_ssh] returns for the child [p]. *)
Definition ssh_result (p : Proc) : string * string * option error :=
  match start_err p with
  | Some _ => ("", "", None)
  | None => (read_all (out_lines p), read_all (err_lines p), Wait p)
  end.

(** The call [f_ssh] records for the child [p]. *)
Definition call_of (host rcmd : string) (p : Proc) : Call :=
  let '(out, err, fault) := ssh_result p in mkCall host rcmd out err fault.

(** A storage host whose removal command exits with 2 after a complaint. *)
Definition removal_fails : State (list Proc) :=
  Script.start [mkProc None [] ["rbd: error opening image"] 2]
    (Script.volume "rbd" "helloImg" "6M").

(** A storage host listing three images, after a blank line. *)
Definition three_images : State (list Proc) :=
  Script.start [Script.prints [""; "alpha"; "helloImg"; "omega"]]
    (Script.volume "rbd" "helloImg" "6M").

Definition no_storage_host : Config := Script.config [] ["192.168.3.100"].

Definition no_hypervisor : Config := Script.config ["192.168.10.20"] [].

Definition fresh_volume : State (list Proc) :=
  Script.start [] (Script.volume "rbd" "helloImg" "6M").

Definition fresh_vm : State (list Proc) :=
  Script.start [] (Script.vm "helloVm").

(** A storage host on which no child can be started, then a hypervisor. *)
Definition create_unstarted : State (list Proc) :=
  Script.start [Script.no_ssh; Script.meminfo "2097152"; Script.prints []]
    (Script.volume "rbd" "helloImg" "6M").



(** One hypervisor running the VM as pid 2533650, on which the kill exits
    with 0 after a complaint on stderr. *)
Definition kill_complains : State (list Proc) :=
  Script.start
    [Script.prints ["2533650 /bin/qemu -name tf-helloVm -smp 1 -m 128"];
     Script.complains ["kill: warning"]]
    (Script.vm "helloVm").

(** One hypervisor whose process listing shows, as pid 4711, the command
    [rsVmCreate] launches for [helloVm]. *)
Definition launched_listing : State (list Proc) :=
  Script.start
    [Script.prints ["4711 " ++ qemu_launch_cmd (Script.vm "helloVm")]]
    (Script.vm "helloVm").

(** The provider block as [rbdConfig] reads it; the two lists are what the
    [List()] method of the two host sets returns, in its order. *)
Record ProviderData : Type := mkProviderData {
  pd_ssh_private_key : string;
  pd_ceph_rbduser : string;
  pd_ceph_hosts : list string;
  pd_qemu_hosts : list string
}.

(** [rbdConfig] on the globals [g]: the two strings are overwritten, the
    hosts are appended to the ones already there. *)
Definition rbdConfig (d : ProviderData) (g : Config) : Config :=
  mkConfig (pd_ssh_private_key d) (pd_ceph_rbduser d)
    (fold_left (fun hosts v => (hosts ++ [v])%list) (pd_ceph_hosts d)
       (G_ceph_hosts g))
    (fold_left (fun hosts v => (hosts ++ [v])%list) (pd_qemu_hosts d)
       (G_qemu_hosts g)).

(** The globals before any configuration. *)
Definition unconfigured : Config := mkConfig "" "" [] [].

Definition first_block : ProviderData :=
  mkProviderData "/root/.ssh/id_ed25519" "admin"
    ["192.168.10.20"; "192.168.10.18"] ["192.168.3.100"].

Definition second_block : ProviderData :=
  mkProviderData "/root/.ssh/other_key" "operator"
    ["192.168.10.15"] ["192.168.3.101"].

(* ------------------------------------------------------------------------- *)
(** ** The calls a run makes, child by child *)

(** [played spawn cfg w calls w']: starting in the world [w], each call of
    [calls] in turn is what [f_ssh] records for the child [spawn] hands out
    for its host and command, and [w'] is the world after the last one. *)
Inductive played {World : Type}
          (spawn : World -> string -> list string -> Proc * World)
          (cfg : Config) : World -> list Call -> World -> Prop :=
| played_nil w : played spawn cfg w [] w
| played_cons w host rcmd p w1 calls w2 :
    spawn w "ssh" (ssh_argv cfg host rcmd) = (p, w1) ->
    played spawn cfg w1 calls w2 ->
    played spawn cfg w (call_of host rcmd p :: calls) w2.

(** Two hypervisors, the first complaining on stderr, the second running
    the VM. *)
Definition first_host_complains : State (list Proc) :=
  Script.start
    [Script.complains ["Permission denied"];
     Script.prints ["2533650 /bin/qemu -name tf-helloVm -smp 1 -m 128"]]
    (Script.vm "helloVm").

(** Two hypervisors, the first unreachable (ssh exits with 255), the second
    running the VM. *)
Definition first_host_unreachable : State (list Proc) :=
  Script.start
    [Script.exits 255;
     Script.prints ["2533650 /bin/qemu -name tf-helloVm -smp 1 -m 128"]]
    (Script.vm "helloVm").

(** One hypervisor running [tf-helloVm-2] and [tf-helloVm], listed in that
    order: [grep -w 'tf-helloVm'] lets both lines through. *)
Definition other_vm_listed_first : State (list Proc) :=
  Script.start
    [Script.prints ["2533651 /bin/qemu -name tf-helloVm-2 -smp 1 -m 128";
                    "2533650 /bin/qemu -name tf-helloVm -smp 1 -m 128"]]
    (Script.vm "helloVm").

(** One hypervisor whose listing has two lines, neither with [-name] as its
    token 2. *)
Definition two_short_lines : State (list Proc) :=
  Script.start [Script.prints ["7"; "8 -name tf-helloVm"]]
    (Script.vm "helloVm").


(** The state the scripted cluster is left in: the children still to come,
    the calls made, the resource data. *)
Definition left (w : list Proc) (calls : list Call) (d : ResourceData)
  : State (list Proc) := mkState w calls d.

(* ------------------------------------------------------------------------- *)
(** ** Two facts about lists *)

(** An element of [pre ++ [x]] that is followed by another one lies in
    [pre]. *)
Lemma followed_in_init {A : Type} (pre pre' post : list A) (x c : A) :
  (pre ++ [x])%list = (pre' ++ c :: post)%list -> post <> [] -> In c pre.
Proof.
  intros Ec Hpost.
  destruct (exists_last Hpost) as (post' & y & Ey). subst post.
  change (pre' ++ c :: post' ++ [y])%list
    with (pre' ++ (c :: post') ++ [y])%list in Ec.
  rewrite app_assoc in Ec. apply app_inj_tail in Ec. destruct Ec as [Ec _].
  subst pre. apply in_or_app. right. left. reflexivity.
Qed.


(* ------------------------------------------------------------------------- *)
(** ** The provider, call by call *)

Section Facts.

Context {World : Type}.
Variable spawn : World -> string -> list string -> Proc * World.
Variable cfg : Config.

Lemma f_ssh_inv (host rcmd : string) (st : State World) :
  exists c w,
    call_host c = host /\ call_cmd c = rcmd /\
    f_ssh spawn cfg host rcmd st
    = (Ret (call_out c, call_err c, call_fault c), ssh_call st c w).
Proof.
  unfold f_ssh.
  destruct (spawn (world st) "ssh" _) as [p w].
  destruct (start_err p).
  - exists (mkCall host rcmd "" "" None), w. auto.
  - exists (mkCall host rcmd (read_all (out_lines p))
              (read_all (err_lines p)) (Wait p)), w.
    auto.
Qed.

Lemma probe_failed_false (c : Call) :
  probe_failed c = false <->
  call_fault c = None /\ (0 <? len (call_err c)) = false.
Proof.
  unfold probe_failed. destruct (call_fault c); cbn; intuition congruence.
Qed.

Lemma len_pos_nonempty (s : string) : (0 <? len s) = false <-> s = "".
Proof.
  unfold len. destruct s; cbn; split; intro H; try reflexivity;
    discriminate.
Qed.

Lemma search_hosts_searched (id cmd : string) (hosts : list string) :
  forall st, exists calls r w,
    search_hosts spawn cfg id cmd hosts st
    = (Ret r, mkState w (trace st ++ calls) (rdata st))
    /\ searched id cmd hosts calls r.
Proof.
  induction hosts as [|v rest IH]; intro st.
  - exists [], ("", 0, None), (world st). rewrite app_nil_r.
    destruct st; split; [reflexivity | constructor].
  - cbn [search_hosts]. unfold bind at 1.
    destruct (f_ssh_inv v cmd st) as (c & w1 & Hh & Hc & E). rewrite E.
    destruct (call_fault c) as [e|] eqn:Hf.
    + exists [c], ("", 0, probe_error c), w1. split.
      * unfold probe_error. rewrite Hf. reflexivity.
      * apply se_abort; auto. unfold probe_failed. now rewrite Hf.
    + destruct (0 <? len (call_err c)) eqn:He.
      * exists [c], ("", 0, probe_error c), w1. split.
        -- unfold probe_error. rewrite Hf, He. reflexivity.
        -- apply se_abort; auto. unfold probe_failed.
           rewrite He. apply orb_true_r.
      * assert (Hok : probe_failed c = false)
          by (apply probe_failed_false; auto).
        destruct (accepted id c) eqn:Ha.
        -- exists [c], (v, probe_pid c, None), w1. split.
           ++ unfold accepted in Ha. apply andb_true_iff in Ha.
              destruct Ha as [H3 Hn]. rewrite H3, Hn. reflexivity.
           ++ apply se_found; auto.
        -- destruct (IH (ssh_call st c w1)) as (calls & r & w & E2 & S2).
           exists (c :: calls), r, w. split.
           ++ assert (Hgo :
                (if 3 <? len_slice (Fields (call_out c))
                 then if name_matches id (Fields (call_out c))
                      then ret (v, probe_pid c, None)
                      else search_hosts spawn cfg id cmd rest
                 else search_hosts spawn cfg id cmd rest)
                = search_hosts spawn cfg id cmd rest).
              { unfold accepted in Ha.
                destruct (3 <? len_slice (Fields (call_out c)));
                  [cbn in Ha; rewrite Ha|]; reflexivity. }
              unfold probe_pid in Hgo. rewrite Hgo, E2. cbn.
              rewrite <- app_assoc. reflexivity.
           ++ apply se_next; auto. split; auto.
Qed.

(** The shape of every search: a run of quiet probes, then either the end
    of the host list, or one failed probe, or one accepted probe. *)
Lemma searched_shape (id cmd : string) hosts calls r :
  searched id cmd hosts calls r ->
  map call_host calls = firstn (List.length calls) hosts
  /\ Forall (fun c => call_cmd c = cmd) calls
  /\ exists pre,
      Forall (quiet id) pre
      /\ ((calls = pre /\ List.length calls = List.length hosts
           /\ r = ("", 0, None))
          \/ (exists c, calls = (pre ++ [c])%list /\ probe_failed c = true
                        /\ r = ("", 0, probe_error c))
          \/ (exists c, calls = (pre ++ [c])%list /\ probe_failed c = false
                        /\ accepted id c = true
                        /\ r = (call_host c, probe_pid c, None))).
Proof.
  induction 1 as [|v rest c Hh Hc Hf|v rest c Hh Hc Hf Ha
                  |v rest c calls r Hh Hc Hq _ IH].
  - repeat split; auto. exists []. split; auto.
  - repeat split; cbn; auto; try congruence.
    exists []. split; auto. right; left. exists c. auto.
  - repeat split; cbn; auto; try congruence.
    exists []. split; auto. right; right. exists c. subst v. auto.
  - destruct IH as (Hm & Hcs & pre & Hpre & Hcase).
    repeat split; cbn; auto; try congruence.
    exists (c :: pre). split; auto.
    destruct Hcase as [(E & L & R)|[(c' & E & F & R)|(c' & E & F & A & R)]].
    + left. subst. auto.
    + right; left. exists c'. subst. auto.
    + right; right. exists c'. subst. auto.
Qed.

Lemma probe_error_failed (c : Call) :
  probe_failed c = true <-> probe_error c <> None.
Proof.
  unfold probe_failed, probe_error.
  destruct (call_fault c); cbn.
  - split; [discriminate | reflexivity].
  - destruct (0 <? len (call_err c)); split; congruence.
Qed.

Lemma quiet_not_failed (id : string) (cs : list Call) :
  Forall (quiet id) cs -> Forall (fun c => probe_failed c = false) cs.
Proof. apply Forall_impl. intros c [H _]. exact H. Qed.

Lemma quiet_no_failure (id : string) (cs : list Call) :
  Forall (quiet id) cs -> ~ Exists (fun c => probe_failed c = true) cs.
Proof.
  intros Hq Hex. apply Exists_exists in Hex. destruct Hex as (c & Hin & Hf).
  rewrite Forall_forall in Hq. destruct (Hq c Hin). congruence.
Qed.

(** The positions [accepted] looks at. *)
Lemma accepted_tokens (id : string) (c : Call) :
  accepted id c = true <->
  exists t0 t1 rest,
    Fields (call_out c) = t0 :: t1 :: "-name" :: id :: rest.
Proof.
  unfold accepted, name_matches, len_slice. split.
  - intro H. apply andb_true_iff in H. destruct H as [H3 H].
    apply andb_true_iff in H. destruct H as [H2 Hid].
    destruct (Fields (call_out c)) as [|t0 [|t1 [|t2 [|t3 rest]]]];
      try discriminate.
    cbn in H2, Hid. apply String.eqb_eq in H2, Hid. subst.
    eauto.
  - intros (t0 & t1 & rest & E). rewrite E. cbn [nth].
    rewrite !String.eqb_refl. rewrite andb_true_r.
    cbn [List.length]. apply Z.ltb_lt. lia.
Qed.



Lemma scan_hosts_scanned (hosts : list string) :
  forall mx best st, exists calls r w,
    scan_hosts spawn cfg hosts mx best st
    = (r, mkState w (trace st ++ calls) (rdata st))
    /\ scanned hosts (mx, best) calls r.
Proof.
  induction hosts as [|v rest IH]; intros mx best st.
  - exists [], (Ret (mx, best)), (world st). rewrite app_nil_r.
    destruct st; split; [reflexivity | constructor].
  - cbn [scan_hosts]. unfold bind at 1.
    destruct (f_ssh_inv v meminfo_cmd st) as (c & w1 & Hh & Hc & E).
    fold meminfo_cmd. rewrite E.
    change (negb (is_nil (call_fault c)) || (0 <? len (call_err c)))
      with (probe_failed c).
    destruct (probe_failed c) eqn:Hf.
    + destruct (IH mx best (ssh_call st c w1)) as (calls & r & w & E2 & S2).
      exists (c :: calls), r, w. split.
      * rewrite E2. cbn. rewrite <- app_assoc. reflexivity.
      * apply sc_skip; auto.
    + unfold bind, index.
      destruct (nth_error (Split_blanks (call_out c)) 1) as [tok|] eqn:Ht.
      * assert (Hr : reports c (Atoi tok)) by (split; eauto).
        cbn [ret]. destruct (mx <? Atoi tok) eqn:Hlt.
        -- destruct (IH (Atoi tok) v (ssh_call st c w1))
             as (calls & r & w & E2 & S2).
           exists (c :: calls), r, w. split.
           ++ rewrite E2. cbn. rewrite <- app_assoc. reflexivity.
           ++ apply sc_take with (kb := Atoi tok); auto.
              apply Z.ltb_lt; auto.
        -- destruct (IH mx best (ssh_call st c w1))
             as (calls & r & w & E2 & S2).
           exists (c :: calls), r, w. split.
           ++ rewrite E2. cbn. rewrite <- app_assoc. reflexivity.
           ++ apply sc_keep with (kb := Atoi tok); auto.
              apply Z.ltb_ge; auto.
      * exists [c], (Panic "index out of range"), w1. split.
        -- reflexivity.
        -- apply sc_panic; auto.
Qed.

Lemma scanned_calls hosts acc calls r :
  scanned hosts acc calls r ->
  Forall (fun c => call_cmd c = meminfo_cmd) calls
  /\ map call_host calls = firstn (List.length calls) hosts
  /\ (forall a, r = Ret a -> map call_host calls = hosts).
Proof.
  induction 1 as [acc|v rest acc c calls r Hh Hc _ _ IH|v rest acc c Hh Hc _ _
                  |v rest mx best c kb calls r Hh Hc _ _ _ IH
                  |v rest mx best c kb calls r Hh Hc _ _ _ IH];
    try (destruct IH as (I1 & I2 & I3));
    repeat split; cbn; auto; try congruence.
  - intros a Ha. f_equal; eauto.
  - intros a Ha. f_equal; eauto.
  - intros a Ha. f_equal; eauto.
Qed.



(** [f_getHypervisor spawn cfg] is its scan followed by the capacity test. *)
Lemma f_getHypervisor_scanned (mem : Z) (st : State World) :
  exists calls r w,
    scanned (G_qemu_hosts cfg) (0, "") calls r
    /\ f_getHypervisor spawn cfg mem st
       = (match r with
          | Ret (mx, b) => Ret (if mem <? Z.quot mx 1024 then b else "")
          | Panic msg => Panic msg
          end, mkState w (trace st ++ calls) (rdata st))
    /\ scan_hosts spawn cfg (G_qemu_hosts cfg) 0 "" st
       = (r, mkState w (trace st ++ calls) (rdata st)).
Proof.
  destruct (scan_hosts_scanned (G_qemu_hosts cfg) 0 "" st)
    as (calls & r & w & E & S).
  exists calls, r, w. split; [exact S|]. split; [|exact E].
  unfold f_getHypervisor, bind. rewrite E.
  destruct r as [[mx b]|msg]; auto.
  destruct (mem <? Z.quot mx 1024); reflexivity.
Qed.

Lemma f_vmExists_searched (vm : string) (st : State World) :
  exists calls r w,
    f_vmExists spawn cfg vm st = (Ret r, mkState w (trace st ++ calls) (rdata st))
    /\ searched (vm_id vm) (vm_search_cmd (vm_id vm)) (G_qemu_hosts cfg)
         calls r.
Proof. apply search_hosts_searched. Qed.

(** The prober never reports an error together with a host. *)
Lemma searched_error_no_host id cmd hosts calls host pid e :
  searched id cmd hosts calls (host, pid, Some e) -> host = "" /\ pid = 0.
Proof.
  intro H. apply searched_shape in H.
  destruct H as (_ & _ & pre & _ & [(_ & _ & R)|[(c & _ & _ & R)|(c & _ & _ & _ & R)]]);
    inversion R; auto.
Qed.

Lemma rsVmRead_eq (st st1 : State World) host pid fault :
  f_vmExists spawn cfg (name (rdata st)) st = (Ret (host, pid, fault), st1) ->
  rsVmRead spawn cfg st
  = (Ret None,
     if negb (is_nil fault) && (0 <? len host)
     then with_id (vm_id (name (rdata st))) st1 else st1).
Proof.
  intro E. unfold rsVmRead, bind, Get. rewrite E.
  destruct (negb (is_nil fault) && (0 <? len host)); reflexivity.
Qed.

Lemma rsVmDelete_absent (st st1 : State World) host pid fault :
  f_vmExists spawn cfg (name (rdata st)) st = (Ret (host, pid, fault), st1) ->
  (0 <? len host) && (1 <? pid) && is_nil fault = false ->
  rsVmDelete spawn cfg st = (Ret (Some (not_located_msg (name (rdata st)))), st1).
Proof.
  intros E G. unfold rsVmDelete, bind, Get. rewrite E, G. reflexivity.
Qed.

Lemma rsVmDelete_kill (st st1 : State World) host pid fault :
  f_vmExists spawn cfg (name (rdata st)) st = (Ret (host, pid, fault), st1) ->
  (0 <? len host) && (1 <? pid) && is_nil fault = true ->
  exists c w,
    call_host c = host /\ call_cmd c = "kill " ++ itoa pid
    /\ rsVmDelete spawn cfg st
       = (Ret (match call_fault c with
               | Some _ =>
                   Some (kill_failed_msg (name (rdata st)) pid host)
               | None => None
               end), ssh_call st1 c w).
Proof.
  intros E G. unfold rsVmDelete, bind, Get. rewrite E, G.
  destruct (f_ssh_inv host ("kill " ++ itoa pid) st1) as (c & w & Hh & Hc & E2).
  exists c, w. rewrite E2. splits; auto.
  destruct (call_fault c); reflexivity.
Qed.

(** The inventory prober on a configured storage host: one call, an error
    exactly when that call failed. *)
Lemma f_rbdExists_inv (pool img : string) (st : State World) h0 rest :
  G_ceph_hosts cfg = h0 :: rest ->
  exists c w,
    call_host c = h0 /\ call_cmd c = "rbd ls -p " ++ pool
    /\ f_rbdExists spawn cfg pool img st
       = (Ret (if probe_failed c then false
               else find_image (Split_newline (call_out c)) img,
               match call_fault c with
               | Some e => Some ("ssh fault - " ++ e)
               | None =>
                   if 0 <? len (call_err c)
                   then Some ("rbd fault - " ++ call_err c) else None
               end), ssh_call st c w).
Proof.
  intro Hc. unfold f_rbdExists, bind, index. rewrite Hc. cbn [nth_error ret].
  destruct (f_ssh_inv h0 ("rbd ls -p " ++ pool) st) as (c & w & Hh & Hcmd & E).
  exists c, w. rewrite E. splits; auto. unfold probe_failed.
  destruct (call_fault c); cbn; auto.
  destruct (0 <? len (call_err c)); reflexivity.
Qed.

Lemma f_rbdExists_no_host (pool img : string) (st : State World) :
  G_ceph_hosts cfg = [] ->
  f_rbdExists spawn cfg pool img st = (Panic "index out of range", st).
Proof. intro Hc. unfold f_rbdExists, bind, index. rewrite Hc. reflexivity. Qed.

Lemma rsRbdRead_eq (st st1 : State World) result fault :
  f_rbdExists spawn cfg (osd_pool (rdata st)) (img_name (rdata st)) st
  = (Ret (result, fault), st1) ->
  rsRbdRead spawn cfg st
  = (Ret None,
     if is_nil fault && Bool.eqb result true
     then with_id (osd_pool (rdata st) ++ "/" ++ img_name (rdata st)) st1
     else st1).
Proof.
  intro E. unfold rsRbdRead, bind, Get. rewrite E.
  destruct (is_nil fault && Bool.eqb result true); reflexivity.
Qed.

Lemma rsRbdCreate_eq (st st1 : State World) h0 rest out err fault :
  G_ceph_hosts cfg = h0 :: rest ->
  let d := rdata st in
  f_ssh spawn cfg h0 (rbd_create_cmd (osd_pool d) (img_name d) (img_size d)) st
  = (Ret (out, err, fault), st1) ->
  rsRbdCreate spawn cfg st
  = match fault with
    | Some e => (Ret (Some e), st1)
    | None =>
        if 0 <? len err then (Ret (Some err), st1)
        else materialize spawn cfg (osd_pool d) (img_name d) (img_size d)
               (with_id (osd_pool d ++ "/" ++ img_name d) st1)
    end.
Proof.
  intros Hc d E. unfold rsRbdCreate, bind at 1 2 3 4, Get, index.
  rewrite Hc. cbn [nth_error ret].
  unfold rbd_create_cmd in E. fold d. unfold bind at 1. rewrite E.
  destruct fault; auto.
  destruct (0 <? len err); reflexivity.
Qed.

Lemma f_ssh_rdata (host rcmd : string) (st st1 : State World) r :
  f_ssh spawn cfg host rcmd st = (r, st1) -> rdata st1 = rdata st.
Proof.
  intro E. destruct (f_ssh_inv host rcmd st) as (c & w & _ & _ & E').
  rewrite E' in E. inversion E. reflexivity.
Qed.

(** The calls of [materialize spawn cfg]: memory probes, then at most one
    [qemu-img] call, whose failure is the error returned. *)
Lemma materialize_inv (pool img size : string) (st : State World) :
  exists probes r w,
    Forall (fun c => call_cmd c = meminfo_cmd) probes
    /\ ((materialize spawn cfg pool img size st
         = (r, mkState w (trace st ++ probes) (rdata st))
         /\ (r = Ret None \/ exists msg, r = Panic msg))
        \/ exists c,
            call_cmd c = qemu_img_cmd cfg pool img size
            /\ call_host c <> ""
            /\ r = Ret (probe_error c)
            /\ materialize spawn cfg pool img size st
               = (r, mkState w (trace st ++ probes ++ [c]) (rdata st))).
Proof.
  destruct (f_getHypervisor_scanned 1 st) as (probes & r0 & w0 & S & E & _).
  pose proof (scanned_calls _ _ _ _ S) as (Hcmds & _ & _).
  destruct r0 as [[mx b]|msg].
  - set (h := if 1 <? Z.quot mx 1024 then b else "") in E.
    destruct (len h <? 1) eqn:Hl.
    + exists probes, (Ret None), w0. split; auto. left. split; auto.
      unfold materialize, bind. rewrite E, Hl. reflexivity.
    + destruct (f_ssh_inv h (qemu_img_cmd cfg pool img size)
                  (mkState w0 (trace st ++ probes) (rdata st)))
        as (c & w & Hh & Hc & E2).
      exists probes, (Ret (probe_error c)), w. split; auto. right.
      exists c. splits; auto.
      * rewrite Hh. intro Hn. rewrite Hn in Hl. discriminate.
      * unfold materialize, bind. rewrite E, Hl, E2.
        unfold ssh_call. cbn [trace rdata].
        rewrite <- app_assoc. unfold probe_error.
        destruct (call_fault c); auto.
        destruct (0 <? len (call_err c)); reflexivity.
  - exists probes, (Panic msg), w0. split; auto. left. split; eauto.
    unfold materialize, bind. rewrite E. reflexivity.
Qed.

End Facts.

(* ------------------------------------------------------------------------- *)
(** ** The provider, child by child *)

Section Children.

Context {World : Type}.
Variable spawn : World -> string -> list string -> Proc * World.
Variable cfg : Config.

Lemma f_ssh_spawn (host rcmd : string) (st : State World) p w :
  spawn (world st) "ssh" (ssh_argv cfg host rcmd) = (p, w) ->
  f_ssh spawn cfg host rcmd st
  = (Ret (ssh_result p), ssh_call st (call_of host rcmd p) w).
Proof.
  intro E. unfold f_ssh. unfold ssh_argv in E. rewrite E.
  unfold call_of, ssh_result. destruct (start_err p); reflexivity.
Qed.

Lemma played_one (w w1 : World) host rcmd p :
  spawn w "ssh" (ssh_argv cfg host rcmd) = (p, w1) ->
  played spawn cfg w [call_of host rcmd p] w1.
Proof. intro E. eapply played_cons; [exact E | constructor]. Qed.

(** The calls of the prober's loop are the children of its search command
    on the hosts, one after the other. *)
Lemma search_hosts_played (id cmd : string) (hosts : list string) :
  forall st, exists calls r w,
    search_hosts spawn cfg id cmd hosts st
    = (Ret r, mkState w (trace st ++ calls) (rdata st))
    /\ played spawn cfg (world st) calls w.
Proof.
  induction hosts as [|v rest IH]; intro st.
  - exists [], ("", 0, None), (world st). rewrite app_nil_r.
    destruct st; split; [reflexivity | constructor].
  - cbn [search_hosts]. unfold bind at 1.
    destruct (spawn (world st) "ssh" (ssh_argv cfg v cmd)) as [p w1] eqn:Es.
    rewrite (f_ssh_spawn v cmd st p w1 Es).
    destruct (IH (ssh_call st (call_of v cmd p) w1))
      as (calls & r & w & E2 & P2).
    assert (Hnext : exists calls' r' w',
               search_hosts spawn cfg id cmd rest
                 (ssh_call st (call_of v cmd p) w1)
               = (Ret r', mkState w' (trace st ++ calls') (rdata st))
               /\ played spawn cfg (world st) calls' w').
    { exists (call_of v cmd p :: calls), r, w. split.
      - rewrite E2. cbn. rewrite <- app_assoc. reflexivity.
      - eapply played_cons; [exact Es | exact P2]. }
    assert (Hstop : forall r' : string * Z * option error,
             exists calls' r'' w',
               (Ret r', ssh_call st (call_of v cmd p) w1)
               = (Ret r'', mkState w' (trace st ++ calls') (rdata st))
               /\ played spawn cfg (world st) calls' w').
    { intro r'. exists [call_of v cmd p], r', w1. split; [reflexivity|].
      apply played_one. exact Es. }
    destruct (ssh_result p) as [[out err] [e|]]; [apply Hstop|].
    destruct (0 <? len err); [apply Hstop|].
    destruct (3 <? len_slice (Fields out)); [|exact Hnext].
    destruct (name_matches id (Fields out)); [apply Hstop | exact Hnext].
Qed.

Lemma f_vmExists_run (vm : string) (st : State World) :
  exists calls r w,
    f_vmExists spawn cfg vm st
    = (Ret r, mkState w (trace st ++ calls) (rdata st))
    /\ searched (vm_id vm) (vm_search_cmd (vm_id vm)) (G_qemu_hosts cfg)
         calls r
    /\ played spawn cfg (world st) calls w.
Proof.
  destruct (f_vmExists_searched spawn cfg vm st) as (calls & r & w & E & S).
  destruct (search_hosts_played (vm_id vm) (vm_search_cmd (vm_id vm))
              (G_qemu_hosts cfg) st) as (calls' & r' & w' & E' & P).
  unfold f_vmExists in E. rewrite E in E'. inversion E' as [[Hr Hw Ht]].
  apply app_inv_head in Ht. subst calls' w'.
  exists calls, r, w. auto.
Qed.



End Children.

(* ------------------------------------------------------------------------- *)
(** ** The remote executor *)

(** C3. What [f_ssh] hands back, for every host, command and child: when the
    child was started, the fault is non-nil exactly when it exited non-zero,
    whatever it wrote on stderr, and both buffers are passed on; when the
    child could not be started, the fault is nil and both buffers are empty,
    so the failed launch is not reported to the caller. On the scripted
    cluster: a child that cannot be started gives a nil fault, a child that
    exits with 255 gives a fault, a child that only writes on stderr gives
    its text and a nil fault. *)
Theorem f_ssh_fault_report :
  (forall (World : Type)
          (spawn : World -> string -> list string -> Proc * World)
          (cfg : Config) (host rcmd : string) (st : State World),
      let p := fst (spawn (world st) "ssh" (ssh_argv cfg host rcmd)) in
      exists out err fault st',
        f_ssh spawn cfg host rcmd st = (Ret (out, err, fault), st')
        /\ (start_err p = None ->
            out = read_all (out_lines p) /\ err = read_all (err_lines p)
            /\ (fault <> None <-> exit_code p <> 0))
        /\ (start_err p <> None -> out = "" /\ err = "" /\ fault = None))
  /\ fst (f_ssh Script.spawn one_hypervisor "192.168.3.100" meminfo_cmd
            (Script.start [Script.no_ssh] (Script.vm "helloVm")))
     = Ret ("", "", None)
  /\ fst (f_ssh Script.spawn one_hypervisor "192.168.3.100" meminfo_cmd
            (Script.start [Script.exits 255] (Script.vm "helloVm")))
     = Ret ("", "", Some "exit status 255")
  /\ fst (f_ssh Script.spawn one_hypervisor "192.168.3.100" meminfo_cmd
            (Script.start [Script.complains ["Connection timed out"]]
               (Script.vm "helloVm")))
     = Ret ("", "Connection timed out", None).
Proof.
  split; [|repeat split].
  intros World spawn cfg host rcmd st p. unfold f_ssh. subst p.
  unfold ssh_argv.
  destruct (spawn (world st) "ssh" _) as [p w]. cbn [fst].
  destruct (start_err p) as [e|] eqn:Hs.
  - do 4 eexists. split; [reflexivity|]. split; [discriminate | auto].
  - do 4 eexists. split; [reflexivity|]. split; [|congruence].
    intros _. split; [reflexivity|]. split; [reflexivity|].
    unfold Wait. destruct (Z.eqb_spec (exit_code p) 0) as [E|E].
    + rewrite E. split; congruence.
    + split; [auto | discriminate].
Qed.

(* ------------------------------------------------------------------------- *)
(** ** The process prober *)

(** C5. For every VM name and every cluster, [f_vmExists] returns. The calls
    it makes are the children of its search command on a prefix of the
    configured hosts, in order, and it leaves the world the last of them
    left. Its error is non-nil exactly when one of these probes came back
    with a fault or with text on stderr, and then that probe is the last one
    made, every probe before it was clean, and host and pid are empty and
    0; when every probe made was clean and none was accepted, every
    configured host was probed and the result is the empty host, pid 0 and
    a nil error. With two hypervisors of which the first complains on
    stderr, or is unreachable, that complaint or fault is the error and the
    second, which runs the VM, is never contacted; with two hypervisors
    listing nothing, both are probed and nothing is found. *)
Theorem f_vmExists_fail_fast :
  (forall (World : Type)
          (spawn : World -> string -> list string -> Proc * World)
          (cfg : Config) (vm : string) (st : State World),
      exists host pid fault calls w,
        f_vmExists spawn cfg vm st
        = (Ret (host, pid, fault), mkState w (trace st ++ calls) (rdata st))
        /\ played spawn cfg (world st) calls w
        /\ Forall (fun c => call_cmd c = vm_search_cmd (vm_id vm)) calls
        /\ map call_host calls = firstn (List.length calls) (G_qemu_hosts cfg)
        /\ (fault <> None <-> Exists (fun c => probe_failed c = true) calls)
        /\ (fault <> None ->
            exists pre c,
              calls = (pre ++ [c])%list
              /\ Forall (fun c' => probe_failed c' = false) pre
              /\ probe_failed c = true /\ fault = probe_error c
              /\ host = "" /\ pid = 0)
        /\ (Forall (quiet (vm_id vm)) calls ->
            map call_host calls = G_qemu_hosts cfg
            /\ host = "" /\ pid = 0 /\ fault = None))
  /\ f_vmExists Script.spawn two_hypervisors "helloVm" first_host_complains
     = (Ret ("", 0, Some "Permission denied"),
        left
          [Script.prints ["2533650 /bin/qemu -name tf-helloVm -smp 1 -m 128"]]
          [mkCall "192.168.3.100" (vm_search_cmd "tf-helloVm") ""
             "Permission denied" None]
          (Script.vm "helloVm"))
  /\ f_vmExists Script.spawn two_hypervisors "helloVm" first_host_unreachable
     = (Ret ("", 0, Some "exit status 255"),
        left
          [Script.prints ["2533650 /bin/qemu -name tf-helloVm -smp 1 -m 128"]]
          [mkCall "192.168.3.100" (vm_search_cmd "tf-helloVm") "" ""
             (Some "exit status 255")]
          (Script.vm "helloVm"))
  /\ f_vmExists Script.spawn two_hypervisors "helloVm" nobody_running
     = (Ret ("", 0, None),
        left []
          [mkCall "192.168.3.100" (vm_search_cmd "tf-helloVm") "" "" None;
           mkCall "192.168.3.101" (vm_search_cmd "tf-helloVm") "" "" None]
          (Script.vm "helloVm")).
Proof.
  split; [|repeat split].
  intros World spawn cfg vm st.
  destruct (f_vmExists_run spawn cfg vm st) as (calls & r & w & E & S & P).
  apply searched_shape in S.
  destruct S as (Hm & Hcmd & pre & Hpre & Hcase).
  destruct r as [[host pid] fault]. exists host, pid, fault, calls, w.
  split; [exact E|]. split; [exact P|]. split; [exact Hcmd|].
  split; [exact Hm|].
  destruct Hcase as [(Ec & L & R)|[(c & Ec & F & R)|(c & Ec & F & A & R)]];
    inversion R; subst; clear R.
  - split; [|split].
    + split; [congruence|]. intro Hex.
      exfalso. eapply quiet_no_failure; eauto.
    + congruence.
    + intros _. rewrite Hm, L. rewrite firstn_all. auto.
  - assert (Hne : probe_error c <> None) by (apply probe_error_failed; auto).
    split; [|split].
    + split; auto. intros _. apply Exists_app. right. constructor. exact F.
    + intros _. exists pre, c. split; auto. split; eauto using quiet_not_failed.
    + intro Hq. apply Forall_app in Hq. destruct Hq as [_ Hq].
      inversion Hq as [|? ? [Hc _] _]; subst. congruence.
  - split; [|split].
    + split; [congruence|]. intro Hex. exfalso.
      apply Exists_app in Hex. destruct Hex as [Hex|Hex].
      * eapply quiet_no_failure; eauto.
      * inversion Hex as [? ? Hc|? ? Hc]; subst; [congruence|inversion Hc].
    + congruence.
    + intro Hq. apply Forall_app in Hq. destruct Hq as [_ Hq].
      inversion Hq as [|? ? [_ Hc] _]; subst. congruence.
Qed.

(** C6. [f_vmExists] reads the whole output of a host as one run of
    tokens, not line by line. For every VM name and every cluster, its calls
    are the children of its search command on the hosts in order; when it
    returns a host or a pid, its last probe was clean and the tokens of its
    whole output have ["-name"] at position 2 and the derived id at position
    3, the host is the probed one and the pid is token 0 read as an integer;
    conversely a clean probe whose output has that shape is the one
    returned; every probe followed by another one was clean and did not
    have that shape; and a clean probe without that shape is followed by a
    probe of the next host as long as one is configured. On a one-line
    output this is the matching the design describes: the sample line for
    [helloVm] yields pid 2533650 on its host, and a line with [-name] at
    another position is passed over for the next host. On a two-line
    output it is not: the sample line listed after the line of
    [tf-helloVm-2] is not found, and the lines ["7"] and
    ["8 -name tf-helloVm"], neither of which has [-name] as its token 2, are
    accepted together with pid 7. *)
Theorem f_vmExists_token_positions :
  (forall (World : Type)
          (spawn : World -> string -> list string -> Proc * World)
          (cfg : Config) (vm : string) (st : State World),
      exists host pid fault calls w,
        f_vmExists spawn cfg vm st
        = (Ret (host, pid, fault), mkState w (trace st ++ calls) (rdata st))
        /\ played spawn cfg (world st) calls w
        /\ map call_host calls = firstn (List.length calls) (G_qemu_hosts cfg)
        /\ (host <> "" \/ pid <> 0 ->
            exists pre c t0 t1 rest,
              calls = (pre ++ [c])%list /\ probe_failed c = false
              /\ Fields (call_out c) = t0 :: t1 :: "-name" :: vm_id vm :: rest
              /\ host = call_host c /\ pid = Atoi t0 /\ fault = None)
        /\ (forall c t0 t1 rest,
               In c calls -> probe_failed c = false ->
               Fields (call_out c) = t0 :: t1 :: "-name" :: vm_id vm :: rest ->
               host = call_host c /\ pid = Atoi t0 /\ fault = None)
        /\ (forall pre c post,
               calls = (pre ++ c :: post)%list -> post <> [] ->
               probe_failed c = false
               /\ ~ exists t0 t1 rest,
                     Fields (call_out c)
                     = t0 :: t1 :: "-name" :: vm_id vm :: rest)
        /\ (forall pre c post,
               calls = (pre ++ c :: post)%list -> quiet (vm_id vm) c ->
               (List.length pre + 1 < List.length (G_qemu_hosts cfg))%nat ->
               post <> []))
  /\ fst (f_vmExists Script.spawn (Script.config [] ["192.168.3.100"])
            "helloVm" one_host_running)
     = Ret ("192.168.3.100", 2533650, None)
  /\ fst (f_vmExists Script.spawn
            (Script.config [] ["192.168.3.100"; "192.168.3.101"])
            "helloVm" shifted_then_running)
     = Ret ("192.168.3.101", 4242, None)
  /\ fst (f_vmExists Script.spawn one_hypervisor "helloVm"
            other_vm_listed_first)
     = Ret ("", 0, None)
  /\ fst (f_vmExists Script.spawn one_hypervisor "helloVm" two_short_lines)
     = Ret ("192.168.3.100", 7, None).
Proof.
  split; [|repeat split].
  intros World spawn cfg vm st.
  destruct (f_vmExists_run spawn cfg vm st) as (calls & r & w & E & S & P).
  apply searched_shape in S.
  destruct S as (Hm & _ & pre & Hpre & Hcase).
  destruct r as [[host pid] fault]. exists host, pid, fault, calls, w.
  split; [exact E|]. split; [exact P|]. split; [exact Hm|].
  assert (Hquiet : forall c, In c pre ->
             probe_failed c = false
             /\ ~ exists t0 t1 rest,
                   Fields (call_out c) = t0 :: t1 :: "-name" :: vm_id vm :: rest).
  { intros c Hin. rewrite Forall_forall in Hpre.
    destruct (Hpre c Hin) as [Hf Ha]. split; auto.
    intro Hsh. apply accepted_tokens in Hsh. congruence. }
  destruct Hcase as [(Ec & L & R)|[(c0 & Ec & F & R)|(c0 & Ec & F & A & R)]];
    inversion R; subst; clear R.
  - split; [|split; [|split]].
    + intros [H|H]; congruence.
    + intros c t0 t1 rest Hin _ Hsh. exfalso.
      apply (proj2 (Hquiet c Hin)). eauto.
    + intros pre' c post Ec _. apply Hquiet. rewrite Ec.
      apply in_or_app. right. left. reflexivity.
    + intros pre' c post Ec _ Hlen Hpost. subst post.
      rewrite <- L, Ec, length_app in Hlen. cbn in Hlen. lia.
  - split; [|split; [|split]].
    + intros [H|H]; congruence.
    + intros c t0 t1 rest Hin Hok Hsh. exfalso.
      apply in_app_or in Hin. destruct Hin as [Hin|[Hin|[]]].
      * apply (proj2 (Hquiet c Hin)). eauto.
      * subst. congruence.
    + intros pre' c post Ec Hpost. apply Hquiet.
      eapply followed_in_init; eauto.
    + intros pre' c post Ec [Hq _] _ Hpost. subst post.
      apply app_inj_tail in Ec. destruct Ec as [_ Ec]. subst c. congruence.
  - pose proof (proj1 (accepted_tokens _ _) A) as (t0 & t1 & rest & Hsh).
    split; [|split; [|split]].
    + intros _. exists pre, c0, t0, t1, rest. splits; auto.
      unfold probe_pid. rewrite Hsh. reflexivity.
    + intros c u0 u1 urest Hin Hok Hu.
      apply in_app_or in Hin. destruct Hin as [Hin|[Hin|[]]].
      * exfalso. apply (proj2 (Hquiet c Hin)). eauto.
      * subst c. splits; auto. unfold probe_pid. rewrite Hu. reflexivity.
    + intros pre' c post Ec Hpost. apply Hquiet.
      eapply followed_in_init; eauto.
    + intros pre' c post Ec [_ Hq] _ Hpost. subst post.
      apply app_inj_tail in Ec. destruct Ec as [_ Ec]. subst c. congruence.
Qed.

(* ------------------------------------------------------------------------- *)
(** ** The VM handlers *)

(** C2. [rsVmRead] asks for a non-nil error together with a host, which the
    prober never returns: for every cluster it returns nil and leaves the
    resource data as the prober left it, which is as it found it. On the
    cluster with one hypervisor running [tf-helloVm] the prober returns that
    host with a nil error, and the id is still unset after the read. *)
Theorem rsVmRead_never_sets_id :
  (forall (World : Type)
          (spawn : World -> string -> list string -> Proc * World)
          (cfg : Config) (st : State World),
      exists host pid fault st1,
        f_vmExists spawn cfg (name (rdata st)) st
        = (Ret (host, pid, fault), st1)
        /\ rdata st1 = rdata st
        /\ rsVmRead spawn cfg st = (Ret None, st1))
  /\ fst (f_vmExists Script.spawn (Script.config [] ["192.168.3.100"])
            "helloVm" one_host_running)
     = Ret ("192.168.3.100", 2533650, None)
  /\ Id (rdata (snd (rsVmRead Script.spawn
                       (Script.config [] ["192.168.3.100"])
                       one_host_running))) = "".
Proof.
  split; [|split; reflexivity].
  intros World spawn cfg st.
  destruct (f_vmExists_searched spawn cfg (name (rdata st)) st)
    as (calls & r & w & E & S).
  destruct r as [[host pid] fault].
  exists host, pid, fault, (mkState w (trace st ++ calls) (rdata st)).
  split; [exact E|]. split; [reflexivity|].
  rewrite (rsVmRead_eq spawn cfg _ _ _ _ _ E).
  destruct fault as [e|]; [|reflexivity].
  apply searched_error_no_host in S. destruct S as [Hh _]. subst host.
  reflexivity.
Qed.

(** C7. Whenever the prober comes back without a host, [rsVmDelete] returns
    the error naming the VM as not located, and does nothing more than the
    prober did. *)
Theorem rsVmDelete_not_located :
  forall (World : Type) (spawn : World -> string -> list string -> Proc * World)
         (cfg : Config) (st st1 : State World) (pid : Z)
         (fault : option error),
    f_vmExists spawn cfg (name (rdata st)) st = (Ret ("", pid, fault), st1) ->
    rsVmDelete spawn cfg st
    = (Ret (Some ("Could not locate VM and pid of " ++ name (rdata st))), st1).
Proof.
  intros World spawn cfg st st1 pid fault E.
  apply (rsVmDelete_absent spawn cfg _ _ _ _ _ E). reflexivity.
Qed.

Lemma rsVmDelete_not_located_witness :
  f_vmExists Script.spawn two_hypervisors "helloVm" nobody_running
  = (Ret ("", 0, None),
     snd (f_vmExists Script.spawn two_hypervisors "helloVm" nobody_running))
  /\ rsVmDelete Script.spawn two_hypervisors nobody_running
     = (Ret (Some "Could not locate VM and pid of helloVm"),
        snd (f_vmExists Script.spawn two_hypervisors "helloVm" nobody_running)).
Proof.
  split; [reflexivity|].
  apply (rsVmDelete_not_located _ Script.spawn two_hypervisors nobody_running
           _ 0 None).
  reflexivity.
Defined.

(** C10. Given what the prober returned: a pid of 1 or less makes
    [rsVmDelete] return the not-located error from the very state the prober
    left; and whatever [rsVmDelete] returns, either it stopped in that state
    or the pid exceeds 1, the host is non-empty, the prober's error is nil
    and exactly one more call was made, the kill of that pid on that host.
    The calls the prober itself made all carry its search command. *)
Theorem rsVmDelete_kill_guard :
  forall (World : Type) (spawn : World -> string -> list string -> Proc * World)
         (cfg : Config) (st st1 : State World) (host : string) (pid : Z)
         (fault : option error),
    f_vmExists spawn cfg (name (rdata st)) st = (Ret (host, pid, fault), st1) ->
    (pid <= 1 ->
     rsVmDelete spawn cfg st
     = (Ret (Some ("Could not locate VM and pid of " ++ name (rdata st))),
        st1))
    /\ (forall r st2,
           rsVmDelete spawn cfg st = (r, st2) ->
           st2 = st1
           \/ (1 < pid /\ host <> "" /\ fault = None
               /\ exists c w,
                   st2 = ssh_call st1 c w /\ call_host c = host
                   /\ call_cmd c = "kill " ++ itoa pid))
    /\ (exists calls,
           trace st1 = (trace st ++ calls)%list
           /\ Forall (fun c =>
                        call_cmd c = vm_search_cmd (vm_id (name (rdata st))))
                calls).
Proof.
  intros World spawn cfg st st1 host pid fault E.
  destruct ((0 <? len host) && (1 <? pid) && is_nil fault) eqn:G.
  - apply andb_true_iff in G. destruct G as [G Hn].
    apply andb_true_iff in G. destruct G as [Hh Hp].
    apply Z.ltb_lt in Hp.
    split; [lia|]. split.
    + intros r st2 E2. right.
      destruct (rsVmDelete_kill spawn cfg _ _ _ _ _ E) as (c & w & Hc & Hk & Ed).
      { rewrite Hh, Hn. apply Z.ltb_lt in Hp. rewrite Hp. reflexivity. }
      rewrite Ed in E2. inversion E2; subst r st2.
      splits; auto.
      * intro Hnil. rewrite Hnil in Hh. discriminate.
      * destruct fault; [discriminate | reflexivity].
      * exists c, w. auto.
    + destruct (f_vmExists_searched spawn cfg (name (rdata st)) st)
        as (calls & r & w & E' & S).
      rewrite E' in E. inversion E; subst.
      exists calls. split; [reflexivity|].
      apply searched_shape in S. tauto.
  - pose proof (rsVmDelete_absent spawn cfg _ _ _ _ _ E G) as Ed.
    split; [intros _; exact Ed|]. split.
    + intros r st2 E2. left. rewrite Ed in E2. inversion E2; reflexivity.
    + destruct (f_vmExists_searched spawn cfg (name (rdata st)) st)
        as (calls & r & w & E' & S).
      rewrite E' in E. inversion E; subst.
      exists calls. split; [reflexivity|].
      apply searched_shape in S. tauto.
Qed.

Lemma rsVmDelete_kill_guard_witness :
  f_vmExists Script.spawn one_hypervisor "helloVm" unreadable_pid
  = (Ret ("192.168.3.100", 0, None),
     snd (f_vmExists Script.spawn one_hypervisor "helloVm" unreadable_pid))
  /\ rsVmDelete Script.spawn one_hypervisor unreadable_pid
     = (Ret (Some "Could not locate VM and pid of helloVm"),
        snd (f_vmExists Script.spawn one_hypervisor "helloVm" unreadable_pid))
  /\ List.length
       (trace (snd (rsVmDelete Script.spawn one_hypervisor unreadable_pid)))
     = 1%nat.
Proof.
  split; [reflexivity|]. split; [|reflexivity].
  apply (proj1 (rsVmDelete_kill_guard _ Script.spawn one_hypervisor
                  unreadable_pid _ "192.168.3.100" 0 None eq_refl)).
  lia.
Defined.

(* ------------------------------------------------------------------------- *)
(** ** The volume handlers *)

(** C9. For every cluster and every resource, [rsRbdRead] never returns a
    non-nil error. Given what the inventory prober returned: it left the
    resource data alone, it reported "not found" whenever it reported an
    error, and [rsRbdRead] returns nil, setting the id to pool/name when the
    prober found the image and leaving the prober's state untouched
    otherwise, so an error and an absent image end the same way. *)
Theorem rsRbdRead_always_nil :
  forall (World : Type) (spawn : World -> string -> list string -> Proc * World)
         (cfg : Config) (st : State World),
    (forall e, fst (rsRbdRead spawn cfg st) <> Ret (Some e))
    /\ forall (st1 : State World) (result : bool) (fault : option error),
        f_rbdExists spawn cfg (osd_pool (rdata st)) (img_name (rdata st)) st
        = (Ret (result, fault), st1) ->
        rdata st1 = rdata st
        /\ (fault <> None -> result = false)
        /\ rsRbdRead spawn cfg st
           = (Ret None,
              if result
              then with_id (osd_pool (rdata st) ++ "/" ++ img_name (rdata st))
                     st1
              else st1).
Proof.
  intros World spawn cfg st.
  destruct (G_ceph_hosts cfg) as [|h0 rest] eqn:Hc.
  - pose proof (f_rbdExists_no_host spawn cfg (osd_pool (rdata st))
                  (img_name (rdata st)) st Hc) as Ep.
    split.
    + intro e. unfold rsRbdRead, bind, Get. rewrite Ep. discriminate.
    + intros st1 result fault E. rewrite Ep in E. discriminate.
  - destruct (f_rbdExists_inv spawn cfg (osd_pool (rdata st))
                (img_name (rdata st)) st h0 rest Hc) as (c & w & _ & _ & E').
    split.
    + intro e. rewrite (rsRbdRead_eq spawn cfg _ _ _ _ E'). discriminate.
    + intros st1 result fault E. rewrite (rsRbdRead_eq spawn cfg _ _ _ _ E).
      rewrite E' in E. inversion E; subst; clear E.
      split; [reflexivity|].
      unfold probe_failed.
      destruct (call_fault c) as [e|]; cbn [is_nil negb orb andb].
      * split; reflexivity.
      * destruct (0 <? len (call_err c)); cbn [is_nil negb orb andb].
        -- split; reflexivity.
        -- split; [intro H; elim H; reflexivity|].
           destruct (find_image (Split_newline (call_out c))
                       (img_name (rdata st))); reflexivity.
Qed.

Lemma rsRbdRead_always_nil_witness :
  f_rbdExists Script.spawn one_storage_host "rbd" "helloImg" listing_fails
  = (Ret (false, Some "rbd fault - rbd: error opening pool"),
     snd (f_rbdExists Script.spawn one_storage_host "rbd" "helloImg"
            listing_fails))
  /\ rsRbdRead Script.spawn one_storage_host listing_fails
     = (Ret None,
        snd (f_rbdExists Script.spawn one_storage_host "rbd" "helloImg"
               listing_fails))
  /\ Id (rdata (snd (rsRbdRead Script.spawn one_storage_host listing_fails)))
     = "".
Proof.
  split; [reflexivity|]. split; [|reflexivity].
  apply (proj2 (proj2 (proj2 (rsRbdRead_always_nil _ Script.spawn
                                one_storage_host listing_fails)
                         _ false
                         (Some "rbd fault - rbd: error opening pool")
                         eq_refl))).
Defined.

(** C1. Given what the primary command came back with on the first storage
    host: a fault or text on stderr makes [rsRbdCreate] return a non-nil
    error from the state the command left, resource data untouched; a clean
    return makes it continue with the secondary step from a state whose id
    is already pool/name, and however that step ends (no hypervisor, a
    panic while probing, or a qemu-img call that fails or not) the id is
    still pool/name, a failed qemu-img call giving a non-nil error. *)
Theorem rsRbdCreate_identity :
  forall (World : Type) (spawn : World -> string -> list string -> Proc * World)
         (cfg : Config) (st st1 : State World) (h0 : string)
         (rest : list string) (out err : string) (fault : option error),
    let d := rdata st in
    let id := osd_pool d ++ "/" ++ img_name d in
    G_ceph_hosts cfg = h0 :: rest ->
    f_ssh spawn cfg h0
      (rbd_create_cmd (osd_pool d) (img_name d) (img_size d)) st
    = (Ret (out, err, fault), st1) ->
    (fault <> None \/ err <> "" ->
     rdata st1 = d
     /\ exists e, rsRbdCreate spawn cfg st = (Ret (Some e), st1))
    /\ (fault = None -> err = "" ->
        rsRbdCreate spawn cfg st
        = materialize spawn cfg (osd_pool d) (img_name d) (img_size d)
            (with_id id st1)
        /\ exists probes r w,
            Forall (fun p => call_cmd p = meminfo_cmd) probes
            /\ ((rsRbdCreate spawn cfg st
                 = (r, mkState w (trace st1 ++ probes) (SetId id d))
                 /\ (r = Ret None \/ exists msg, r = Panic msg))
                \/ exists c2,
                    call_cmd c2
                    = qemu_img_cmd cfg (osd_pool d) (img_name d) (img_size d)
                    /\ (probe_failed c2 = true -> exists e, r = Ret (Some e))
                    /\ (probe_failed c2 = false -> r = Ret None)
                    /\ rsRbdCreate spawn cfg st
                       = (r, mkState w (trace st1 ++ probes ++ [c2])
                               (SetId id d)))).
Proof.
  intros World spawn cfg st st1 h0 rest out err fault d id Hc E.
  pose proof (f_ssh_rdata spawn cfg _ _ _ _ _ E) as Hd.
  pose proof (rsRbdCreate_eq spawn cfg st st1 h0 rest out err fault Hc E) as Eq.
  fold d in Eq. fold id in Eq. split.
  - intros Hfail. split; [exact Hd|].
    destruct fault as [e|]; [eauto|].
    destruct (0 <? len err) eqn:He; [eauto|].
    apply len_pos_nonempty in He. destruct Hfail; congruence.
  - intros Hf He. subst fault err.
    assert (Eq' : rsRbdCreate spawn cfg st
                  = materialize spawn cfg (osd_pool d) (img_name d)
                      (img_size d) (with_id id st1)) by exact Eq.
    clear Eq. rename Eq' into Eq. split; [exact Eq|].
    destruct (materialize_inv spawn cfg (osd_pool d) (img_name d) (img_size d)
                (with_id id st1))
      as (probes & r & w & Hp & [[Em Hr]|(c2 & Hc2 & _ & Hr & Em)]);
      exists probes, r, w; (split; [exact Hp|]).
    + left. split; [|exact Hr]. rewrite Eq, Em.
      unfold with_id. cbn [trace rdata]. rewrite Hd. reflexivity.
    + right. exists c2. split; [exact Hc2|]. split; [|split].
      * intro F. apply probe_error_failed in F. rewrite Hr.
        destruct (probe_error c2) as [e|]; [eauto | congruence].
      * intro F. rewrite Hr. f_equal.
        destruct (probe_error c2) eqn:Pe; [|reflexivity].
        assert (probe_failed c2 = true)
          by (apply probe_error_failed; congruence).
        congruence.
      * rewrite Eq, Em.
        unfold with_id. cbn [trace rdata]. rewrite Hd. reflexivity.
Qed.

Lemma rsRbdCreate_identity_witness :
  G_ceph_hosts one_storage_host = ["192.168.10.20"]
  /\ f_ssh Script.spawn one_storage_host "192.168.10.20"
       (rbd_create_cmd "rbd" "helloImg" "6M") qemu_img_fails
     = (Ret ("", "", None),
        snd (f_ssh Script.spawn one_storage_host "192.168.10.20"
               (rbd_create_cmd "rbd" "helloImg" "6M") qemu_img_fails))
  /\ rsRbdCreate Script.spawn one_storage_host qemu_img_fails
     = materialize Script.spawn one_storage_host "rbd" "helloImg" "6M"
         (with_id "rbd/helloImg"
            (snd (f_ssh Script.spawn one_storage_host "192.168.10.20"
                    (rbd_create_cmd "rbd" "helloImg" "6M") qemu_img_fails)))
  /\ fst (rsRbdCreate Script.spawn one_storage_host qemu_img_fails)
     = Ret (Some "qemu-img: error connecting")
  /\ Id (rdata (snd (rsRbdCreate Script.spawn one_storage_host
                       qemu_img_fails)))
     = "rbd/helloImg".
Proof.
  split; [reflexivity|]. split; [reflexivity|].
  split; [|split; reflexivity].
  apply (proj1 (proj2 (rsRbdCreate_identity _ Script.spawn one_storage_host
                         qemu_img_fails _ "192.168.10.20" [] "" "" None
                         eq_refl eq_refl) eq_refl eq_refl)).
Defined.

(* ------------------------------------------------------------------------- *)
(** ** The hypervisor selector *)




(* ------------------------------------------------------------------------- *)
(** ** Further properties: strings *)

Lemma append_nil_r (s : string) : s ++ "" = s.
Proof. induction s as [|c s IH]; cbn; [reflexivity | now rewrite IH]. Qed.

Lemma append_assoc (a b c : string) : (a ++ b) ++ c = a ++ (b ++ c).
Proof. induction a as [|x a IH]; cbn; [reflexivity | now rewrite IH]. Qed.

Lemma len_zero (s : string) : (len s =? 0) = true <-> s = "".
Proof.
  unfold len. destruct s; cbn; split; intro H; try reflexivity; discriminate.
Qed.


(** The buffer a read loop builds from a non-empty start. *)
Lemma read_loop_from (lines : list string) (buf : string) :
  buf <> "" ->
  fold_left
    (fun b line => if len b =? 0 then line else b ++ String "010" line)
    lines buf
  = buf ++ fold_right (fun l acc => String "010" (l ++ acc)) "" lines.
Proof.
  revert buf. induction lines as [|l lines IH]; intros buf Hb; cbn.
  - now rewrite append_nil_r.
  - destruct (len buf =? 0) eqn:E.
    + apply len_zero in E. contradiction.
    + rewrite IH.
      * rewrite append_assoc. reflexivity.
      * destruct buf; [contradiction | discriminate].
Qed.

Lemma read_all_drop (lines : list string) :
  read_all lines = read_all (drop_blank_lines lines).
Proof.
  induction lines as [|l lines IH]; [reflexivity|].
  destruct l; [|reflexivity]. exact IH.
Qed.

(** The buffer is empty exactly when every line read was empty. *)
Lemma read_all_empty (lines : list string) :
  read_all lines = "" <-> Forall (fun l => l = "") lines.
Proof.
  induction lines as [|l lines IH].
  - split; constructor.
  - destruct l as [|c l].
    + change (read_all ("" :: lines)) with (read_all lines).
      rewrite IH. split; intro H; [constructor; auto | now inversion H].
    + split; intro H; [|inversion H; discriminate].
      unfold read_all in H. cbn [fold_left] in H.
      change (if len "" =? 0 then String c l else "" ++ String "010" (String c l))
        with (String c l) in H.
      rewrite read_loop_from in H by discriminate. discriminate.
Qed.

Lemma split_on_free (sep : ascii -> bool) (t s cur : string) :
  (forall c, has_byte c t = true -> sep c = false) ->
  split_on sep (t ++ s) cur = split_on sep s (cur ++ t).
Proof.
  revert cur. induction t as [|x t IH]; intros cur Hfree; cbn.
  - now rewrite append_nil_r.
  - rewrite (Hfree x) by (cbn; rewrite Ascii.eqb_refl; reflexivity).
    rewrite IH.
    + rewrite append_assoc. reflexivity.
    + intros c Hc. apply Hfree. cbn. rewrite Hc. apply orb_true_r.
Qed.

Lemma newline_free_sep (t : string) :
  newline_free t ->
  forall c, has_byte c t = true -> Ascii.eqb c "010" = false.
Proof.
  intros Hf c Hc. destruct (Ascii.eqb_spec c "010") as [E|E]; [|reflexivity].
  subst c. unfold newline_free in Hf. congruence.
Qed.

(** Splitting at newlines what a read loop joined gives the lines back. *)
Lemma split_joined (lines : list string) (cur : string) :
  Forall newline_free lines ->
  split_on (fun c => Ascii.eqb c "010")
    (fold_right (fun l acc => String "010" (l ++ acc)) "" lines) cur
  = cur :: lines.
Proof.
  revert cur. induction lines as [|l lines IH]; intros cur Hall; cbn.
  - reflexivity.
  - inversion Hall as [|? ? Hl Hrest]; subst. f_equal.
    rewrite split_on_free by (apply newline_free_sep; exact Hl).
    apply IH. exact Hrest.
Qed.

(** [strings.Split(out_buf, "\n")] after the read loop: the lines read,
    without the leading empty ones; one empty string when none is left. *)
Lemma split_read_all (lines : list string) :
  Forall newline_free lines ->
  Split_newline (read_all lines)
  = match drop_blank_lines lines with
    | [] => [""]
    | l => l
    end.
Proof.
  intro Hall. rewrite read_all_drop.
  assert (Hd : Forall newline_free (drop_blank_lines lines)).
  { induction Hall as [|l lines Hl Hrest IH]; [constructor|].
    destruct l; [exact IH | constructor; auto]. }
  assert (Hhead : match drop_blank_lines lines with
                  | [] => True
                  | l :: _ => l <> ""
                  end).
  { clear. induction lines as [|l lines IH]; [exact I|].
    destruct l; [exact IH | discriminate]. }
  destruct (drop_blank_lines lines) as [|l rest]; [reflexivity|].
  inversion Hd as [|? ? Hl Hrest]; subst.
  unfold read_all. cbn [fold_left].
  replace (if len "" =? 0 then l else "" ++ String "010" l) with l
    by reflexivity.
  rewrite read_loop_from by exact Hhead.
  unfold Split_newline.
  rewrite split_on_free by (apply newline_free_sep; exact Hl).
  apply split_joined. exact Hrest.
Qed.

Lemma find_image_In (lines : list string) (img : string) :
  find_image lines img = true <-> In img lines.
Proof.
  induction lines as [|l lines IH]; cbn.
  - split; [discriminate | contradiction].
  - destruct (String.eqb_spec l img) as [E|E].
    + split; auto.
    + rewrite IH. split; [auto | intros [H|H]; [contradiction | exact H]].
Qed.

Lemma drop_blank_In (lines : list string) (img : string) :
  img <> "" -> (In img (drop_blank_lines lines) <-> In img lines).
Proof.
  intro Hi. induction lines as [|l lines IH]; [reflexivity|].
  destruct l as [|c l]; [|reflexivity].
  cbn [drop_blank_lines]. rewrite IH. split.
  - intro H. right. exact H.
  - intros [H|H]; [congruence | exact H].
Qed.

(* ------------------------------------------------------------------------- *)
(** ** Further properties: the remote executor and the storage handlers *)

Section Storage.

Context {World : Type}.
Variable spawn : World -> string -> list string -> Proc * World.
Variable cfg : Config.

Lemma call_of_fields (host rcmd : string) (p : Proc) :
  call_host (call_of host rcmd p) = host
  /\ call_cmd (call_of host rcmd p) = rcmd
  /\ (call_out (call_of host rcmd p), call_err (call_of host rcmd p),
      call_fault (call_of host rcmd p)) = ssh_result p.
Proof.
  unfold call_of. destruct (ssh_result p) as [[o e] f]. auto.
Qed.

Lemma Wait_nil (p : Proc) : Wait p = None <-> exit_code p = 0.
Proof.
  unfold Wait. destruct (Z.eqb_spec (exit_code p) 0); split; congruence.
Qed.

(** A child's result reads as clean to the callers of [f_ssh] exactly when
    it could not be started, or exited with 0 leaving only empty lines on
    stderr. *)
Lemma ssh_result_clean (p : Proc) :
  let '(_, err, fault) := ssh_result p in
  (fault = None /\ (0 <? len err) = false)
  <-> (start_err p <> None
       \/ (exit_code p = 0 /\ Forall (fun l => l = "") (err_lines p))).
Proof.
  unfold ssh_result. destruct (start_err p) as [e|].
  - split; [intros _; left; discriminate | intros _; split; reflexivity].
  - rewrite Wait_nil, len_pos_nonempty, read_all_empty.
    split; [intros [H1 H2]; right; auto | intros [H|H]; [congruence | exact H]].
Qed.

End Storage.

(** X1. For every host, command and child that was started: the stdout
    buffer [f_ssh] returns is empty exactly when every line read from stdout
    was empty, and likewise for stderr, so a child that writes only blank
    lines on stderr is handed to the caller as having written nothing. *)
Theorem f_ssh_blank_lines :
  forall (World : Type) (spawn : World -> string -> list string -> Proc * World)
         (cfg : Config) (host rcmd : string) (st : State World),
    let p := fst (spawn (world st) "ssh" (ssh_argv cfg host rcmd)) in
    exists out err fault st',
      f_ssh spawn cfg host rcmd st = (Ret (out, err, fault), st')
      /\ (start_err p = None ->
          (out = "" <-> Forall (fun l => l = "") (out_lines p))
          /\ (err = "" <-> Forall (fun l => l = "") (err_lines p))).
Proof.
  intros World spawn cfg host rcmd st p.
  destruct (spawn (world st) "ssh" (ssh_argv cfg host rcmd)) as [p' w] eqn:E.
  subst p. cbn [fst].
  rewrite (f_ssh_spawn spawn cfg host rcmd st p' w E).
  unfold ssh_result. destruct (start_err p') as [e|].
  - do 4 eexists. split; [reflexivity|]. discriminate.
  - do 4 eexists. split; [reflexivity|]. intros _.
    split; apply read_all_empty.
Qed.

(** X2. With a storage host configured and its listing child started, exited
    with 0, silent on stderr and its lines free of newlines: [f_rbdExists]
    returns a nil error, and answers true for a non-empty image name exactly
    when that name is one of the lines read; when no line was read at all it
    answers true exactly for the empty name. *)
Theorem f_rbdExists_membership :
  forall (World : Type) (spawn : World -> string -> list string -> Proc * World)
         (cfg : Config) (pool img : string) (st : State World)
         (h0 : string) (rest : list string) (p : Proc) (w : World),
    G_ceph_hosts cfg = h0 :: rest ->
    spawn (world st) "ssh" (ssh_argv cfg h0 ("rbd ls -p " ++ pool)) = (p, w) ->
    start_err p = None -> exit_code p = 0 ->
    Forall (fun l => l = "") (err_lines p) ->
    Forall newline_free (out_lines p) ->
    exists found,
      f_rbdExists spawn cfg pool img st
      = (Ret (found, None),
         ssh_call st (call_of h0 ("rbd ls -p " ++ pool) p) w)
      /\ (img <> "" -> (found = true <-> In img (out_lines p)))
      /\ (out_lines p = [] -> (found = true <-> img = "")).
Proof.
  intros World spawn cfg pool img st h0 rest p w Hc E Hs Hx Herr Hout.
  exists (find_image (Split_newline (read_all (out_lines p))) img).
  split.
  - unfold f_rbdExists, bind, index. rewrite Hc. cbn [nth_error ret].
    rewrite (f_ssh_spawn spawn cfg _ _ st p w E).
    unfold call_of, ssh_result. rewrite Hs.
    apply Wait_nil in Hx. rewrite Hx.
    apply read_all_empty in Herr. rewrite Herr. reflexivity.
  - rewrite find_image_In, split_read_all by exact Hout. split.
    + intro Hi. rewrite <- (drop_blank_In (out_lines p) img Hi).
      destruct (drop_blank_lines (out_lines p)); [|reflexivity].
      cbn. split; [intros [H|[]]; congruence | contradiction].
    + intro Hn. rewrite Hn. cbn. split; [intros [H|[]]; auto | auto].
Qed.

Lemma f_rbdExists_membership_witness :
  In "helloImg" [""; "alpha"; "helloImg"; "omega"]
  /\ exists found,
      f_rbdExists Script.spawn one_storage_host "rbd" "helloImg" three_images
      = (Ret (found, None),
         ssh_call three_images
           (call_of "192.168.10.20" "rbd ls -p rbd"
              (Script.prints [""; "alpha"; "helloImg"; "omega"])) [])
      /\ ("helloImg" <> "" ->
          (found = true <-> In "helloImg" [""; "alpha"; "helloImg"; "omega"]))
      /\ (out_lines (Script.prints [""; "alpha"; "helloImg"; "omega"]) = [] ->
          (found = true <-> "helloImg" = "")).
Proof.
  split; [cbn; tauto|].
  apply (f_rbdExists_membership _ Script.spawn one_storage_host "rbd"
           "helloImg" three_images "192.168.10.20" []
           (Script.prints [""; "alpha"; "helloImg"; "omega"]) []).
  - reflexivity.
  - reflexivity.
  - reflexivity.
  - reflexivity.
  - constructor.
  - repeat constructor.
Defined.

(** X3. With a storage host configured and its listing child started:
    a non-zero exit makes [f_rbdExists] answer false with the error
    "ssh fault - exit status N", whatever was written on stderr; an exit
    with 0 and a non-empty stderr buffer makes it answer false with the
    error "rbd fault - " followed by that buffer. Either way the only call
    made is the listing on the first storage host. *)
Theorem f_rbdExists_errors :
  forall (World : Type) (spawn : World -> string -> list string -> Proc * World)
         (cfg : Config) (pool img : string) (st : State World)
         (h0 : string) (rest : list string) (p : Proc) (w : World),
    G_ceph_hosts cfg = h0 :: rest ->
    spawn (world st) "ssh" (ssh_argv cfg h0 ("rbd ls -p " ++ pool)) = (p, w) ->
    start_err p = None ->
    let st1 := ssh_call st (call_of h0 ("rbd ls -p " ++ pool) p) w in
    (exit_code p <> 0 ->
     f_rbdExists spawn cfg pool img st
     = (Ret (false, Some ("ssh fault - exit status " ++ itoa (exit_code p))),
        st1))
    /\ (exit_code p = 0 -> read_all (err_lines p) <> "" ->
        f_rbdExists spawn cfg pool img st
        = (Ret (false, Some ("rbd fault - " ++ read_all (err_lines p))),
           st1)).
Proof.
  intros World spawn cfg pool img st h0 rest p w Hc E Hs st1.
  assert (Eq : f_rbdExists spawn cfg pool img st
               = (let '(out, err, fault) := ssh_result p in
                  match fault with
                  | Some e => (Ret (false, Some ("ssh fault - " ++ e)), st1)
                  | None =>
                      if 0 <? len err
                      then (Ret (false, Some ("rbd fault - " ++ err)), st1)
                      else (Ret (find_image (Split_newline out) img, None),
                            st1)
                  end)).
  { unfold f_rbdExists, bind, index. rewrite Hc. cbn [nth_error ret].
    rewrite (f_ssh_spawn spawn cfg _ _ st p w E). fold st1.
    destruct (ssh_result p) as [[out err] [e|]]; [reflexivity|].
    destruct (0 <? len err); reflexivity. }
  rewrite Eq. unfold ssh_result. rewrite Hs. unfold Wait. split.
  - intro Hx. apply Z.eqb_neq in Hx. rewrite Hx. reflexivity.
  - intros Hx Hne. apply Z.eqb_eq in Hx. rewrite Hx.
    destruct (0 <? len (read_all (err_lines p))) eqn:Hl; [reflexivity|].
    apply len_pos_nonempty in Hl. contradiction.
Qed.

Lemma f_rbdExists_errors_witness :
  fst (f_rbdExists Script.spawn one_storage_host "rbd" "helloImg"
         removal_fails)
  = Ret (false, Some "ssh fault - exit status 2").
Proof.
  rewrite (proj1 (f_rbdExists_errors _ Script.spawn one_storage_host "rbd"
                    "helloImg" removal_fails "192.168.10.20" []
                    (mkProc None [] ["rbd: error opening image"] 2) []
                    eq_refl eq_refl eq_refl)).
  - reflexivity.
  - discriminate.
Defined.

(** X4. Whatever [rsRbdExists] returns, it left the resource data alone and
    answered true only together with a nil error; and [rsRbdRead], run from
    the same state, returns nil, ends where [rsRbdExists] ended, and sets
    the id to pool/name exactly when [rsRbdExists] answered true: the error
    [rsRbdExists] reports is the one [rsRbdRead] drops. *)
Theorem rsRbdExists_agrees_with_Read :
  forall (World : Type) (spawn : World -> string -> list string -> Proc * World)
         (cfg : Config) (st st1 : State World) (found : bool)
         (fault : option error),
    rsRbdExists spawn cfg st = (Ret (found, fault), st1) ->
    rdata st1 = rdata st
    /\ (found = true -> fault = None)
    /\ rsRbdRead spawn cfg st
       = (Ret None,
          if found
          then with_id (osd_pool (rdata st) ++ "/" ++ img_name (rdata st)) st1
          else st1).
Proof.
  intros World spawn cfg st st1 found fault E.
  change (rsRbdExists spawn cfg st)
    with (f_rbdExists spawn cfg (osd_pool (rdata st)) (img_name (rdata st)) st)
    in E.
  rewrite (rsRbdRead_eq spawn cfg _ _ _ _ E).
  destruct (G_ceph_hosts cfg) as [|h0 rest] eqn:Hc.
  - rewrite (f_rbdExists_no_host spawn cfg _ _ _ Hc) in E. discriminate.
  - destruct (f_rbdExists_inv spawn cfg (osd_pool (rdata st))
                (img_name (rdata st)) st h0 rest Hc) as (c & w & _ & _ & E').
    rewrite E' in E. inversion E; subst; clear E.
    split; [reflexivity|]. unfold probe_failed.
    destruct (call_fault c) as [e|]; cbn [is_nil negb orb andb].
    + split; [discriminate | reflexivity].
    + destruct (0 <? len (call_err c)); cbn [is_nil negb orb andb].
      * split; [discriminate | reflexivity].
      * split; [reflexivity|].
        destruct (find_image (Split_newline (call_out c))
                    (img_name (rdata st))); reflexivity.
Qed.

Lemma rsRbdExists_agrees_with_Read_witness :
  rsRbdExists Script.spawn one_storage_host three_images
  = (Ret (true, None),
     snd (rsRbdExists Script.spawn one_storage_host three_images))
  /\ rsRbdRead Script.spawn one_storage_host three_images
     = (Ret None,
        with_id "rbd/helloImg"
          (snd (rsRbdExists Script.spawn one_storage_host three_images))).
Proof.
  split; [reflexivity|].
  apply (proj2 (proj2 (rsRbdExists_agrees_with_Read _ Script.spawn
                         one_storage_host three_images _ true None eq_refl))).
Defined.

(** X5. With a storage host configured, [rsRbdDelete] makes one call, the
    removal command on the first storage host, and leaves the resource data
    alone. It returns nil exactly when the child could not be started, or
    exited with 0 leaving only empty lines on stderr; a non-zero exit is
    returned as "exit status N" whatever stderr holds, and otherwise the
    stderr buffer is the error. *)
Theorem rsRbdDelete_outcome :
  forall (World : Type) (spawn : World -> string -> list string -> Proc * World)
         (cfg : Config) (st : State World) (h0 : string) (rest : list string)
         (p : Proc) (w : World),
    let cmd := rbd_rm_cmd (osd_pool (rdata st)) (img_name (rdata st)) in
    G_ceph_hosts cfg = h0 :: rest ->
    spawn (world st) "ssh" (ssh_argv cfg h0 cmd) = (p, w) ->
    exists r,
      rsRbdDelete spawn cfg st = (Ret r, ssh_call st (call_of h0 cmd p) w)
      /\ (r = None <->
          start_err p <> None
          \/ (exit_code p = 0 /\ Forall (fun l => l = "") (err_lines p)))
      /\ (start_err p = None -> exit_code p <> 0 ->
          r = Some ("exit status " ++ itoa (exit_code p)))
      /\ (start_err p = None -> exit_code p = 0 ->
          read_all (err_lines p) <> "" -> r = Some (read_all (err_lines p))).
Proof.
  intros World spawn cfg st h0 rest p w cmd Hc E.
  assert (Eq : rsRbdDelete spawn cfg st
               = (Ret (let '(_, err, fault) := ssh_result p in
                       match fault with
                       | Some e => Some e
                       | None => if 0 <? len err then Some err else None
                       end), ssh_call st (call_of h0 cmd p) w)).
  { unfold rsRbdDelete, bind, Get, index. rewrite Hc. cbn [nth_error ret].
    unfold cmd, rbd_rm_cmd in E.
    rewrite (f_ssh_spawn spawn cfg _ _ st p w E).
    destruct (ssh_result p) as [[out err] [e|]]; [reflexivity|].
    destruct (0 <? len err); reflexivity. }
  eexists. split; [exact Eq|].
  pose proof (ssh_result_clean p) as Hclean.
  unfold ssh_result in *. destruct (start_err p) as [e|].
  - split; [|split; congruence].
    split; [intros _; left; discriminate | reflexivity].
  - unfold Wait in *. destruct (Z.eqb_spec (exit_code p) 0) as [Hx|Hx].
    + split; [|split; [congruence|]].
      * rewrite <- Hclean.
        destruct (0 <? len (read_all (err_lines p)));
          split; try intros [_ H]; try split; congruence.
      * intros _ _ Hne.
        destruct (0 <? len (read_all (err_lines p))) eqn:Hl; [reflexivity|].
        apply len_pos_nonempty in Hl. contradiction.
    + split; [|split; [reflexivity | congruence]].
      rewrite <- Hclean. split; [discriminate | intros [H _]; discriminate].
Qed.

Lemma rsRbdDelete_outcome_witness :
  rsRbdDelete Script.spawn one_storage_host removal_fails
  = (Ret (Some "exit status 2"),
     ssh_call removal_fails
       (call_of "192.168.10.20" "rbd rm --no-progress rbd/helloImg"
          (mkProc None [] ["rbd: error opening image"] 2)) []).
Proof.
  destruct (rsRbdDelete_outcome _ Script.spawn one_storage_host removal_fails
              "192.168.10.20" [] (mkProc None [] ["rbd: error opening image"] 2)
              [] eq_refl eq_refl) as (r & E & _ & Hx & _).
  rewrite E. rewrite (Hx eq_refl); [reflexivity | discriminate].
Defined.

(** X6. With no storage host configured, each of the volume handlers that
    contact the cluster panics on the index into the empty host list, before
    any call is made and without touching the resource data. *)
Theorem storage_handlers_need_a_host :
  forall (World : Type) (spawn : World -> string -> list string -> Proc * World)
         (cfg : Config) (st : State World),
    G_ceph_hosts cfg = [] ->
    rsRbdCreate spawn cfg st = (Panic "index out of range", st)
    /\ rsRbdRead spawn cfg st = (Panic "index out of range", st)
    /\ rsRbdDelete spawn cfg st = (Panic "index out of range", st)
    /\ rsRbdExists spawn cfg st = (Panic "index out of range", st).
Proof.
  intros World spawn cfg st Hc.
  unfold rsRbdCreate, rsRbdRead, rsRbdDelete, rsRbdExists, f_rbdExists, bind,
    Get, index.
  rewrite Hc. cbn. auto.
Qed.

Lemma storage_handlers_need_a_host_witness :
  rsRbdCreate Script.spawn no_storage_host fresh_volume
  = (Panic "index out of range", fresh_volume)
  /\ rsRbdRead Script.spawn no_storage_host fresh_volume
     = (Panic "index out of range", fresh_volume)
  /\ rsRbdDelete Script.spawn no_storage_host fresh_volume
     = (Panic "index out of range", fresh_volume)
  /\ rsRbdExists Script.spawn no_storage_host fresh_volume
     = (Panic "index out of range", fresh_volume).
Proof.
  apply (storage_handlers_need_a_host _ Script.spawn no_storage_host
           fresh_volume).
  reflexivity.
Defined.

(** X7. With a storage host configured, when the child of the primary
    creation command cannot be started [rsRbdCreate] takes the empty result
    for a success: however the call ends, the id has been set to pool/name
    although nothing was created. *)
Theorem rsRbdCreate_unstarted_sets_id :
  forall (World : Type) (spawn : World -> string -> list string -> Proc * World)
         (cfg : Config) (st : State World) (h0 : string) (rest : list string)
         (p : Proc) (w : World),
    let d := rdata st in
    G_ceph_hosts cfg = h0 :: rest ->
    spawn (world st) "ssh"
      (ssh_argv cfg h0 (rbd_create_cmd (osd_pool d) (img_name d) (img_size d)))
    = (p, w) ->
    start_err p <> None ->
    forall r st',
      rsRbdCreate spawn cfg st = (r, st') ->
      Id (rdata st') = osd_pool d ++ "/" ++ img_name d.
Proof.
  intros World spawn cfg st h0 rest p w d Hc E Hs r st' Er.
  pose proof (f_ssh_spawn spawn cfg _ _ st p w E) as Essh.
  unfold ssh_result in Essh. destruct (start_err p) as [e|]; [|congruence].
  rewrite (rsRbdCreate_eq spawn cfg st _ h0 rest "" "" None Hc Essh) in Er.
  cbn [len String.length Z.of_nat Z.ltb Z.compare] in Er.
  destruct (materialize_inv spawn cfg (osd_pool d) (img_name d) (img_size d)
              (with_id (osd_pool d ++ "/" ++ img_name d)
                 (ssh_call st (call_of h0
                                 (rbd_create_cmd (osd_pool d) (img_name d)
                                    (img_size d)) p) w)))
    as (probes & r' & w' & _ & [[Em _]|(c2 & _ & _ & _ & Em)]);
    fold d in Er; rewrite Em in Er; inversion Er; reflexivity.
Qed.

Lemma rsRbdCreate_unstarted_sets_id_witness :
  start_err Script.no_ssh <> None
  /\ Id (rdata (snd (rsRbdCreate Script.spawn one_storage_host
                       create_unstarted)))
     = "rbd/helloImg".
Proof.
  split; [discriminate|].
  apply (rsRbdCreate_unstarted_sets_id _ Script.spawn one_storage_host
           create_unstarted "192.168.10.20" [] Script.no_ssh
           [Script.meminfo "2097152"; Script.prints []] eq_refl eq_refl)
    with (r := fst (rsRbdCreate Script.spawn one_storage_host create_unstarted)).
  - discriminate.
  - apply surjective_pairing.
Defined.

(* ------------------------------------------------------------------------- *)
(** ** Further properties: the hypervisor selector *)




(* ------------------------------------------------------------------------- *)
(** ** Further properties: the VM handlers *)




(** X12. Given that the prober located the VM on a non-empty host with a
    pid above 1 and a nil error, and given the child of the kill command on
    that host: [rsVmDelete] makes that one further call and returns nil
    exactly when the child could not be started or exited with 0, whatever
    it wrote on stderr; otherwise the error names the VM, the pid and the
    host and ends with the marker of the operand its format lacks. *)
Theorem rsVmDelete_kill_outcome :
  forall (World : Type) (spawn : World -> string -> list string -> Proc * World)
         (cfg : Config) (st st1 : State World) (host : string) (pid : Z)
         (p : Proc) (w : World),
    f_vmExists spawn cfg (name (rdata st)) st = (Ret (host, pid, None), st1) ->
    host <> "" -> 1 < pid ->
    spawn (world st1) "ssh" (ssh_argv cfg host ("kill " ++ itoa pid)) = (p, w) ->
    exists r,
      rsVmDelete spawn cfg st
      = (Ret r, ssh_call st1 (call_of host ("kill " ++ itoa pid) p) w)
      /\ (r = None <-> start_err p <> None \/ exit_code p = 0)
      /\ (r <> None ->
          r = Some ("Failed to delete " ++ name (rdata st) ++ " pid:"
                    ++ itoa pid ++ " on " ++ host ++ " - %!s(MISSING)")).
Proof.
  intros World spawn cfg st st1 host pid p w E Hh Hp Es.
  assert (Eq : rsVmDelete spawn cfg st
               = (Ret (match snd (ssh_result p) with
                       | Some _ =>
                           Some (kill_failed_msg (name (rdata st)) pid host)
                       | None => None
                       end),
                  ssh_call st1 (call_of host ("kill " ++ itoa pid) p) w)).
  { unfold rsVmDelete, bind, Get. rewrite E.
    destruct (0 <? len host) eqn:Hl;
      [|apply len_pos_nonempty in Hl; contradiction].
    apply Z.ltb_lt in Hp. rewrite Hp. cbn [andb is_nil].
    rewrite (f_ssh_spawn spawn cfg _ _ st1 p w Es).
    destruct (ssh_result p) as [[out err] [e|]]; reflexivity. }
  eexists. split; [exact Eq|].
  unfold ssh_result. destruct (start_err p) as [e|]; cbn [snd].
  - split; [|intro H; elim H; reflexivity].
    split; [intros _; left; discriminate | reflexivity].
  - unfold Wait. destruct (Z.eqb_spec (exit_code p) 0) as [Hx|Hx].
    + split; [|intro H; elim H; reflexivity]. split; [auto | reflexivity].
    + split; [|reflexivity].
      split; [discriminate | intros [H|H]; congruence].
Qed.

Lemma rsVmDelete_kill_outcome_witness :
  f_vmExists Script.spawn one_hypervisor "helloVm" kill_complains
  = (Ret ("192.168.3.100", 2533650, None),
     snd (f_vmExists Script.spawn one_hypervisor "helloVm" kill_complains))
  /\ fst (rsVmDelete Script.spawn one_hypervisor kill_complains) = Ret None
  /\ call_cmd (call_of "192.168.3.100" ("kill " ++ itoa 2533650)
                 (Script.complains ["kill: warning"]))
     = "kill 2533650".
Proof.
  split; [reflexivity|]. split; [|reflexivity].
  destruct (rsVmDelete_kill_outcome _ Script.spawn one_hypervisor
              kill_complains _ "192.168.3.100" 2533650
              (Script.complains ["kill: warning"]) [] eq_refl)
    as (r & E & Hnil & _).
  - discriminate.
  - reflexivity.
  - reflexivity.
  - rewrite E. cbn [fst]. f_equal. apply Hnil. right. reflexivity.
Defined.

(** X13. With no hypervisor configured, nothing is ever called: the prober
    finds nothing, the selector returns the empty string for every
    requirement, [rsVmCreate] returns nil without an id, [rsVmRead] returns
    nil, [rsVmExists] answers false and [rsVmDelete] returns the not-located
    error, each leaving the state as it found it. *)
Theorem vm_handlers_without_hypervisor :
  forall (World : Type) (spawn : World -> string -> list string -> Proc * World)
         (cfg : Config) (st : State World) (vm : string) (mem : Z),
    G_qemu_hosts cfg = [] ->
    f_vmExists spawn cfg vm st = (Ret ("", 0, None), st)
    /\ f_getHypervisor spawn cfg mem st = (Ret "", st)
    /\ rsVmCreate spawn cfg st = (Ret None, st)
    /\ rsVmRead spawn cfg st = (Ret None, st)
    /\ rsVmExists spawn cfg st = (Ret (false, None), st)
    /\ rsVmDelete spawn cfg st
       = (Ret (Some ("Could not locate VM and pid of " ++ name (rdata st))),
          st).
Proof.
  intros World spawn cfg st vm mem Hq.
  assert (Hv : forall v, f_vmExists spawn cfg v st = (Ret ("", 0, None), st))
    by (intro v; unfold f_vmExists; rewrite Hq; reflexivity).
  assert (Hg : forall m, f_getHypervisor spawn cfg m st = (Ret "", st)).
  { intro m. unfold f_getHypervisor, bind. rewrite Hq. cbn [scan_hosts ret].
    destruct (m <? Z.quot 0 1024); reflexivity. }
  splits; auto.
  - unfold rsVmCreate, bind, Get. rewrite Hg. reflexivity.
  - unfold rsVmRead, bind, Get. rewrite Hv. reflexivity.
  - unfold rsVmExists, bind, Get. rewrite Hv. reflexivity.
  - unfold rsVmDelete, bind, Get. rewrite Hv. reflexivity.
Qed.

Lemma vm_handlers_without_hypervisor_witness :
  f_vmExists Script.spawn no_hypervisor "helloVm" fresh_vm
  = (Ret ("", 0, None), fresh_vm)
  /\ f_getHypervisor Script.spawn no_hypervisor (-5) fresh_vm
     = (Ret "", fresh_vm)
  /\ rsVmCreate Script.spawn no_hypervisor fresh_vm = (Ret None, fresh_vm)
  /\ rsVmRead Script.spawn no_hypervisor fresh_vm = (Ret None, fresh_vm)
  /\ rsVmExists Script.spawn no_hypervisor fresh_vm
     = (Ret (false, None), fresh_vm)
  /\ rsVmDelete Script.spawn no_hypervisor fresh_vm
     = (Ret (Some "Could not locate VM and pid of helloVm"), fresh_vm).
Proof.
  apply (vm_handlers_without_hypervisor _ Script.spawn no_hypervisor fresh_vm
           "helloVm" (-5)).
  reflexivity.
Defined.

(* ------------------------------------------------------------------------- *)
(** ** Further properties: what is launched is what is searched for *)

(** No white-space rune starts with a printable byte. *)
Lemma space_width_printable (c : ascii) (s : string) :
  ((33 <=? nat_of_ascii c) && (nat_of_ascii c <=? 126))%nat = true ->
  space_width (String c s) = 0%nat.
Proof.
  destruct c as [b0 b1 b2 b3 b4 b5 b6 b7].
  destruct b0, b1, b2, b3, b4, b5, b6, b7; intro H;
    first [discriminate H | reflexivity].
Qed.

(** [strings.Fields] reading a printable word that a space follows. *)
Lemma fields_go_word (t : string) :
  forall (cur : string) (inside : bool) (rest : string),
    printable t = true ->
    fields_go (t ++ String " " rest) 0 cur inside
    = if inside || negb (String.eqb t "")
      then (cur ++ t) :: fields_go rest 0 "" false
      else fields_go rest 0 "" false.
Proof.
  induction t as [|c t IH]; intros cur inside rest Hp.
  - cbn. rewrite append_nil_r. destruct inside; reflexivity.
  - cbn [printable] in Hp. apply andb_true_iff in Hp. destruct Hp as [Hc Ht].
    change (String c t ++ String " " rest)
      with (String c (t ++ String " " rest)).
    cbn [fields_go]. rewrite (space_width_printable c _ Hc).
    rewrite (IH _ true rest Ht). cbn [orb].
    rewrite append_assoc. rewrite orb_true_r. reflexivity.
Qed.

Lemma printable_app (a b : string) :
  printable a = true -> printable b = true -> printable (a ++ b) = true.
Proof.
  intros Ha Hb. induction a as [|c a IH]; [exact Hb|].
  cbn [printable String.append] in *. apply andb_true_iff in Ha.
  destruct Ha as [Hc Ha]. rewrite Hc, (IH Ha). reflexivity.
Qed.

(** The fields of a process-listing line made of a pid and the command
    [rsVmCreate] launches. *)
Lemma fields_launch_line (d : ResourceData) (pidstr : string) :
  printable (name d) = true -> printable pidstr = true -> pidstr <> "" ->
  exists tail,
    Fields (pidstr ++ " " ++ qemu_launch_cmd d)
    = pidstr :: cfg_qemu_sys :: "-name" :: vm_id (name d) :: tail.
Proof.
  intros Hn Hp Hne. eexists. unfold Fields.
  change (pidstr ++ " " ++ qemu_launch_cmd d)
    with (pidstr ++ String " " (qemu_launch_cmd d)).
  rewrite (fields_go_word pidstr) by exact Hp.
  replace (String.eqb pidstr "") with false
    by (destruct pidstr; [contradiction | reflexivity]).
  cbn [orb negb]. change ("" ++ pidstr) with pidstr. f_equal.
  unfold qemu_launch_cmd.
  match goal with
  | |- context [cfg_qemu_sys ++ " " ++ ?x] =>
      change (cfg_qemu_sys ++ " " ++ x) with (cfg_qemu_sys ++ String " " x)
  end.
  rewrite (fields_go_word cfg_qemu_sys) by reflexivity.
  cbn [orb]. f_equal.
  match goal with
  | |- context ["-name " ++ ?x] =>
      change ("-name " ++ x) with ("-name" ++ String " " x)
  end.
  rewrite (fields_go_word "-name") by reflexivity.
  cbn [orb]. f_equal.
  match goal with
  | |- context [(cfg_vmNamePrefix ++ "-" ++ name d) ++ " " ++ ?x] =>
      change ((cfg_vmNamePrefix ++ "-" ++ name d) ++ " " ++ x)
        with ((cfg_vmNamePrefix ++ "-" ++ name d) ++ String " " x)
  end.
  rewrite (fields_go_word (cfg_vmNamePrefix ++ "-" ++ name d))
    by (apply (printable_app "tf-"); [reflexivity | exact Hn]).
  cbn [orb]. reflexivity.
Qed.

(** X14. Take a process-listing line made of a printable pid column, a
    space and the very command [rsVmCreate] launches for a VM with a
    printable name, and let it be a line [ReadLine] returns whole: no
    newline in it and at most 4095 bytes. If the child searching the first
    configured hypervisor prints that one line, nothing but empty lines on
    stderr, and exits with 0, then [f_vmExists] returns that host at once,
    with the pid column read as the pid and a nil error. *)
Theorem launched_vm_is_found :
  forall (World : Type) (spawn : World -> string -> list string -> Proc * World)
         (cfg : Config) (d : ResourceData) (pidstr : string)
         (st : State World) (h0 : string) (rest : list string)
         (p : Proc) (w : World),
    let cmd := vm_search_cmd (vm_id (name d)) in
    let line := pidstr ++ " " ++ qemu_launch_cmd d in
    G_qemu_hosts cfg = h0 :: rest ->
    spawn (world st) "ssh" (ssh_argv cfg h0 cmd) = (p, w) ->
    start_err p = None -> exit_code p = 0 ->
    out_lines p = [line] -> Forall (fun l => l = "") (err_lines p) ->
    newline_free line -> (String.length line <=? 4095)%nat = true ->
    printable (name d) = true -> printable pidstr = true -> pidstr <> "" ->
    f_vmExists spawn cfg (name d) st
    = (Ret (h0, Atoi pidstr, None), ssh_call st (call_of h0 cmd p) w).
Proof.
  intros World spawn cfg d pidstr st h0 rest p w cmd line Hq Es Hs Hx Hout
    Herr _ _ Hn Hp Hne.
  assert (Hr : ssh_result p = (line, "", None)).
  { unfold ssh_result. rewrite Hs, Hout.
    apply Wait_nil in Hx. rewrite Hx.
    apply read_all_empty in Herr. rewrite Herr. reflexivity. }
  destruct (fields_launch_line d pidstr Hn Hp Hne) as (tail & Hf).
  fold line in Hf.
  unfold f_vmExists. rewrite Hq. cbn [search_hosts]. unfold bind.
  fold cmd. rewrite (f_ssh_spawn spawn cfg _ _ st p w Es), Hr.
  cbn [len String.length Z.of_nat Z.ltb Z.compare].
  rewrite Hf. unfold name_matches. cbn [nth].
  rewrite !String.eqb_refl. cbn [andb].
  assert (Hlen : (3 <? len_slice (pidstr :: cfg_qemu_sys :: "-name"
                                    :: vm_id (name d) :: tail)) = true)
    by (unfold len_slice; cbn [List.length]; apply Z.ltb_lt; lia).
  rewrite Hlen. reflexivity.
Qed.

Lemma launched_vm_is_found_witness :
  out_lines (Script.prints ["4711 " ++ qemu_launch_cmd (Script.vm "helloVm")])
  = ["4711" ++ " " ++ qemu_launch_cmd (Script.vm "helloVm")]
  /\ (String.length ("4711" ++ " " ++ qemu_launch_cmd (Script.vm "helloVm"))
      <=? 4095)%nat = true
  /\ f_vmExists Script.spawn one_hypervisor "helloVm" launched_listing
     = (Ret ("192.168.3.100", 4711, None),
        ssh_call launched_listing
          (call_of "192.168.3.100" (vm_search_cmd "tf-helloVm")
             (Script.prints
                ["4711 " ++ qemu_launch_cmd (Script.vm "helloVm")])) []).
Proof.
  split; [reflexivity|]. split; [reflexivity|].
  apply (launched_vm_is_found _ Script.spawn one_hypervisor
           (Script.vm "helloVm") "4711" launched_listing "192.168.3.100" []
           (Script.prints ["4711 " ++ qemu_launch_cmd (Script.vm "helloVm")])
           []); try reflexivity.
  - constructor.
  - discriminate.
Defined.

(* ------------------------------------------------------------------------- *)
(** ** Further properties: configuration *)

Lemma append_each {A : Type} (xs acc : list A) :
  fold_left (fun hosts v => (hosts ++ [v])%list) xs acc = (acc ++ xs)%list.
Proof.
  revert acc. induction xs as [|x xs IH]; intro acc; cbn.
  - now rewrite app_nil_r.
  - rewrite IH, <- app_assoc. reflexivity.
Qed.

(** X15. [rbdConfig] overwrites the key and the user, whatever the globals
    held, but appends the hosts to those already configured, so that on the
    globals as they start out it yields the block as given, and on globals
    that already name a storage host that host stays first and the
    hypervisors of both blocks are kept, the old ones first. The inventory
    prober run under the new configuration then reads the child that is
    spawned with the new key for the old first host: its answer and error
    are computed from that child's result, and that call is the one it
    records. *)
Theorem rbdConfig_appends :
  forall (World : Type) (spawn : World -> string -> list string -> Proc * World)
         (d : ProviderData) (g : Config) (pool img : string)
         (st : State World) (h0 : string) (rest : list string)
         (p : Proc) (w : World),
    G_ceph_hosts g = h0 :: rest ->
    spawn (world st) "ssh"
      [ "-i"; pd_ssh_private_key d;
        "-o"; "StrictHostKeyChecking=no"; "-o"; "BatchMode=yes";
        "root@" ++ h0; "rbd ls -p " ++ pool ] = (p, w) ->
    G_ceph_hosts (rbdConfig d g) = (h0 :: rest ++ pd_ceph_hosts d)%list
    /\ G_qemu_hosts (rbdConfig d g) = (G_qemu_hosts g ++ pd_qemu_hosts d)%list
    /\ G_ssh_private_key (rbdConfig d g) = pd_ssh_private_key d
    /\ G_ceph_rbduser (rbdConfig d g) = pd_ceph_rbduser d
    /\ rbdConfig d unconfigured
       = mkConfig (pd_ssh_private_key d) (pd_ceph_rbduser d)
           (pd_ceph_hosts d) (pd_qemu_hosts d)
    /\ f_rbdExists spawn (rbdConfig d g) pool img st
       = (Ret (let '(out, err, fault) := ssh_result p in
               match fault with
               | Some e => (false, Some ("ssh fault - " ++ e))
               | None =>
                   if 0 <? len err then (false, Some ("rbd fault - " ++ err))
                   else (find_image (Split_newline out) img, None)
               end),
          ssh_call st (call_of h0 ("rbd ls -p " ++ pool) p) w).
Proof.
  intros World spawn d g pool img st h0 rest p w Hc Es.
  assert (Hceph : G_ceph_hosts (rbdConfig d g)
                  = (h0 :: rest ++ pd_ceph_hosts d)%list).
  { unfold rbdConfig. cbn [G_ceph_hosts]. rewrite append_each, Hc.
    reflexivity. }
  split; [exact Hceph|]. split; [|split; [|split; [|split]]].
  - unfold rbdConfig. cbn [G_qemu_hosts]. apply append_each.
  - reflexivity.
  - reflexivity.
  - unfold rbdConfig, unconfigured. cbn [G_ceph_hosts G_qemu_hosts].
    rewrite !append_each. reflexivity.
  - unfold f_rbdExists, bind, index. rewrite Hceph. cbn [nth_error ret].
    rewrite (f_ssh_spawn spawn (rbdConfig d g) h0 ("rbd ls -p " ++ pool)
               st p w Es).
    destruct (ssh_result p) as [[out err] [e|]]; [reflexivity|].
    destruct (0 <? len err); reflexivity.
Qed.

Lemma rbdConfig_appends_witness :
  G_ceph_hosts (rbdConfig second_block (rbdConfig first_block unconfigured))
  = ["192.168.10.20"; "192.168.10.18"; "192.168.10.15"]
  /\ G_qemu_hosts (rbdConfig second_block (rbdConfig first_block unconfigured))
     = ["192.168.3.100"; "192.168.3.101"]
  /\ f_rbdExists Script.spawn
       (rbdConfig second_block (rbdConfig first_block unconfigured))
       "rbd" "helloImg" three_images
     = (Ret (true, None),
        left []
          [mkCall "192.168.10.20" "rbd ls -p rbd"
             (String.concat (String "010" "") ["alpha"; "helloImg"; "omega"])
             "" None]
          (Script.volume "rbd" "helloImg" "6M")).
Proof.
  destruct (rbdConfig_appends _ Script.spawn second_block
              (rbdConfig first_block unconfigured) "rbd" "helloImg"
              three_images "192.168.10.20" ["192.168.10.18"]
              (Script.prints [""; "alpha"; "helloImg"; "omega"]) []
              eq_refl eq_refl)
    as (Hc & Hq & _ & _ & _ & E).
  split; [exact Hc|]. split; [exact Hq|]. rewrite E. reflexivity.
Defined.
